(** * DeFi arbitrage bot: detection, profitability and risk-gating pipeline

    A shallow embedding of the JavaScript services
    [src/services/RiskManager.js], [src/services/ProfitCalculator.js],
    [src/services/ArbitrageEngine.js] and of the parts of
    [DEXPriceFetcher] and [config/config.js] they rely on.

    Conventions of the embedding:
    - a JavaScript number that carries a price, an amount or a USD value is
      a [num]: an exact rational, or one of the IEEE special values
      [+Infinity], [-Infinity], [NaN].  Rounding, overflow and the sign of
      zero are not modelled (zero behaves as [+0]); where a property
      depends on the rounding of doubles, the sizing of a trade, the
      functions concerned are embedded twice more: in [Rounded], every
      arithmetic result passing through a rounding function, and in
      [Binary64], on the doubles themselves;
    - counters and millisecond timestamps are integers ([Z]);
    - every reading of the wall clock is an explicit argument;
    - the results of network calls (price feeds, the settlement contract)
      are explicit arguments as well. *)

From Stdlib Require Import Ascii QArith Qabs Qround Lqa PrimFloat.
From stdpp Require Import gmap strings list fin_maps pretty.

Local Open Scope Z_scope.

(** ** JavaScript numbers *)

Module JsNum.

Inductive num : Type :=
| Fin (q : Q)
| PInf
| NInf
| NaN.

Definition Qltb (a b : Q) : bool := negb (Qle_bool b a).
Definition Qis0 (a : Q) : bool := Qeq_bool a 0.

Definition of_Z (z : Z) : num := Fin (inject_Z z).

(** Unary minus. *)
Definition neg (a : num) : num :=
  match a with
  | Fin q => Fin (- q)
  | PInf => NInf
  | NInf => PInf
  | NaN => NaN
  end.

(** [a + b] *)
Definition add (a b : num) : num :=
  match a, b with
  | NaN, _ | _, NaN => NaN
  | Fin x, Fin y => Fin (x + y)
  | PInf, NInf | NInf, PInf => NaN
  | PInf, _ | _, PInf => PInf
  | NInf, _ | _, NInf => NInf
  end.

(** [a - b] *)
Definition sub (a b : num) : num := add a (neg b).

(** The infinity carrying the sign of [q]; [NaN] for zero
    (used for [q * Infinity]). *)
Definition inf_of_sign (q : Q) : num :=
  if Qis0 q then NaN else if Qltb 0 q then PInf else NInf.

(** [a * b] *)
Definition mul (a b : num) : num :=
  match a, b with
  | NaN, _ | _, NaN => NaN
  | Fin x, Fin y => Fin (x * y)
  | Fin x, PInf | PInf, Fin x => inf_of_sign x
  | Fin x, NInf | NInf, Fin x => neg (inf_of_sign x)
  | PInf, PInf | NInf, NInf => PInf
  | PInf, NInf | NInf, PInf => NInf
  end.

(** [a / b]; a zero divisor is [+0]. *)
Definition div (a b : num) : num :=
  match a, b with
  | NaN, _ | _, NaN => NaN
  | Fin x, Fin y => if Qis0 y then inf_of_sign x else Fin (x / y)
  | Fin _, (PInf | NInf) => Fin 0
  | PInf, Fin y => if Qltb y 0 then NInf else PInf
  | NInf, Fin y => if Qltb y 0 then PInf else NInf
  | (PInf | NInf), (PInf | NInf) => NaN
  end.

(** [a < b]; any comparison with [NaN] is false. *)
Definition ltb (a b : num) : bool :=
  match a, b with
  | NaN, _ | _, NaN => false
  | Fin x, Fin y => Qltb x y
  | NInf, (Fin _ | PInf) => true
  | Fin _, PInf => true
  | _, _ => false
  end.

(** [a <= b] *)
Definition leb (a b : num) : bool :=
  match a, b with
  | NaN, _ | _, NaN => false
  | Fin x, Fin y => Qle_bool x y
  | NInf, _ => true
  | _, PInf => true
  | _, _ => false
  end.

(** [a > b] and [a >= b] *)
Definition gtb (a b : num) : bool := ltb b a.
Definition geb (a b : num) : bool := leb b a.

(** [Math.abs] *)
Definition abs (a : num) : num :=
  match a with
  | Fin q => Fin (Qabs q)
  | PInf | NInf => PInf
  | NaN => NaN
  end.

(** [Math.min(a, b)]: [NaN] as soon as one argument is [NaN]. *)
Definition min (a b : num) : num :=
  match a, b with
  | NaN, _ | _, NaN => NaN
  | _, _ => if leb a b then a else b
  end.

(** [Math.max(a, b)] *)
Definition max (a b : num) : num :=
  match a, b with
  | NaN, _ | _, NaN => NaN
  | _, _ => if leb a b then b else a
  end.

(** Numeric equality of two numbers ([NaN] is only related to itself here:
    this is the equality of the model, not JavaScript's [===]). *)
Definition eqv (a b : num) : Prop :=
  match a, b with
  | Fin x, Fin y => (x == y)%Q
  | PInf, PInf | NInf, NInf | NaN, NaN => True
  | _, _ => False
  end.

Definition finite (a : num) : bool :=
  match a with Fin _ => true | _ => false end.

(** [Math.floor] *)
Definition floor (a : num) : num :=
  match a with
  | Fin q => Fin (inject_Z (Qfloor q))
  | _ => a
  end.

(** [BigInt(a)]: defined on integers only, a [RangeError] otherwise. *)
Definition to_BigInt (a : num) : option Z :=
  match a with
  | Fin q => if Qeq_bool q (inject_Z (Qfloor q)) then Some (Qfloor q) else None
  | _ => None
  end.

End JsNum.

Import JsNum.

Declare Scope num_scope.
Delimit Scope num_scope with num.
Bind Scope num_scope with num.
Infix "+" := add : num_scope.
Infix "-" := sub : num_scope.
Infix "*" := mul : num_scope.
Infix "/" := div : num_scope.
Infix "<?" := ltb : num_scope.
Infix "<=?" := leb : num_scope.
Infix ">?" := gtb : num_scope.
Infix ">=?" := geb : num_scope.
Infix "==" := eqv (at level 70, no associativity) : num_scope.

(** A decimal literal [n / d]. *)
Definition dec (n : Z) (d : positive) : num := Fin (n # d).

(** ** Configuration ([src/config/config.js]) *)

Record DexConfig : Type := {
  dex_name : string;
  router : string;
  factory : string;
  fee : num
}.

Record TradingConfig : Type := {
  minProfitUSD : num;
  maxSlippagePercent : num;
  slippageTolerancePercent : num;
  maxTransactionValue : num;
  gasBufferPercent : num;
  priceUpdateIntervalMs : Z;
  opportunityTimeoutMs : Z
}.

Record RiskConfig : Type := {
  maxDailyLoss : num;
  maxConsecutiveFailures : Z;
  circuitBreakerTimeoutMs : Z;
  minLiquidityUSD : num
}.

Record Config : Type := {
  gasLimit : num;  (* blockchain.networks.ethereum.gasLimit *)
  dexes : gmap string DexConfig;
  trading : TradingConfig;
  risk : RiskConfig
}.

(** The values of [config.js]. *)
Definition config : Config := {|
  gasLimit := of_Z 300000;
  dexes :=
    <[ "uniswap"%string :=
         {| dex_name := "Uniswap V2";
            router := "0x7a250d5630B4cF539739dF2C5dAcb4c659F2488D";
            factory := "0x5C69bEe701ef814a2B6a3EDD4B1652CB9cc5aA6f";
            fee := dec 3 1000 |} ]>
    (<[ "sushiswap"%string :=
         {| dex_name := "SushiSwap";
            router := "0xd9e1cE17f2641f24aE83637ab66a2cca9C378B9F";
            factory := "0xC0AEe478e3658e2610c5F7A4A2E1777cE9e4f2Ac";
            fee := dec 3 1000 |} ]>
    (<[ "pancakeswap"%string :=
         {| dex_name := "PancakeSwap";
            router := "0x10ED43C718714eb63d5aA57B78B54704E256024E";
            factory := "0xcA143Ce32Fe78f1f7019d7d551a6402fC5350c73";
            fee := dec 25 10000 |} ]> ∅));
  trading := {|
    minProfitUSD := of_Z 10;
    maxSlippagePercent := of_Z 5;
    slippageTolerancePercent := of_Z 3;
    maxTransactionValue := of_Z 10000;
    gasBufferPercent := of_Z 20;
    priceUpdateIntervalMs := 1000;
    opportunityTimeoutMs := 30000 |};
  risk := {|
    maxDailyLoss := of_Z 1000;
    maxConsecutiveFailures := 5;
    circuitBreakerTimeoutMs := 300000;
    minLiquidityUSD := of_Z 50000 |}
|}.

(** A reading of the wall clock: [Date.now()] and
    [new Date().toDateString()]. *)
Record Clock : Type := {
  now : Z;
  toDateString : string
}.

(** ** Risk gate ([src/services/RiskManager.js]) *)

Record RiskManager : Type := {
  circuitBreakerOpen : bool;
  circuitBreakerOpenTime : Z;
  consecutiveFailures : Z;
  dailyLoss : num;
  lastResetDate : string;
  tradingPaused : bool
}.

(** The object built by [createOpportunity]. *)
Record Opportunity : Type := {
  id : string;
  tokenPair : string;
  buyDEX : string;
  sellDEX : string;
  buyPrice : num;
  sellPrice : num;
  amount : num;
  priceDifference : num;
  priceDifferencePercent : num;
  timestamp : Z
}.

(** The object returned by [calculateNetProfit]; the [breakdown] fields are
    flattened and [gasEstimateGwei], a formatted string, is left out. *)
Record ProfitAnalysis : Type := {
  grossProfit : num;
  gasEstimate : num;
  platformFees : num;
  slippageImpact : num;
  netProfit : num;
  profitMargin : num;
  profitable : bool;
  (* breakdown *)
  buyAmount : num;
  sellAmount : num;
  buyFee : num;
  sellFee : num
}.

(** [{ ...opportunity, ...profitAnalysis }]: the two objects have no field
    name in common. *)
Record EnhancedOpportunity : Type := {
  opp : Opportunity;
  analysis : ProfitAnalysis
}.

(** The result of one validation: [{ passed, reason }]; the reason text is
    kept as the name of the check. *)
Record Validation : Type := {
  passed : bool;
  reason : string
}.

Section Risk.

Variable cfg : Config.

(** [constructor()] at a given clock reading. *)
Definition RiskManager_new (c : Clock) : RiskManager := {|
  circuitBreakerOpen := false;
  circuitBreakerOpenTime := 0;
  consecutiveFailures := 0;
  dailyLoss := of_Z 0;
  lastResetDate := toDateString c;
  tradingPaused := false
|}.

(** [loadDailyMetrics()], hence [initialize()]: [row] is the [daily_loss]
    of the first row the query returns, after [parseFloat]; [None] when the
    query fails or returns no row.  [x || 0] turns [NaN] and zero into 0. *)
Definition loadDailyMetrics (row : option num) (rm : RiskManager)
  : RiskManager :=
  match row with
  | Some v =>
      {| circuitBreakerOpen := circuitBreakerOpen rm;
         circuitBreakerOpenTime := circuitBreakerOpenTime rm;
         consecutiveFailures := consecutiveFailures rm;
         dailyLoss := match v with
                      | NaN => of_Z 0
                      | Fin q => if Qis0 q then of_Z 0 else v
                      | _ => v
                      end;
         lastResetDate := lastResetDate rm;
         tradingPaused := tradingPaused rm |}
  | None => rm
  end.

(** [canTrade()]: the verdict and the state it leaves. *)
Definition canTrade (c : Clock) (rm : RiskManager) : bool * RiskManager :=
  if tradingPaused rm then (false, rm)
  else
    let after_breaker : option RiskManager :=
      if circuitBreakerOpen rm then
        let timeElapsed := now c - circuitBreakerOpenTime rm in
        if timeElapsed <? circuitBreakerTimeoutMs (risk cfg) then None
        else Some {| circuitBreakerOpen := false;
                     circuitBreakerOpenTime := circuitBreakerOpenTime rm;
                     consecutiveFailures := 0;
                     dailyLoss := dailyLoss rm;
                     lastResetDate := lastResetDate rm;
                     tradingPaused := tradingPaused rm |}
      else Some rm in
    match after_breaker with
    | None => (false, rm)
    | Some rm1 =>
        if (dailyLoss rm1 >=? maxDailyLoss (risk cfg))%num then (false, rm1)
        else
          let currentDate := toDateString c in
          if negb (String.eqb currentDate (lastResetDate rm1)) then
            (true, {| circuitBreakerOpen := circuitBreakerOpen rm1;
                      circuitBreakerOpenTime := circuitBreakerOpenTime rm1;
                      consecutiveFailures := consecutiveFailures rm1;
                      dailyLoss := of_Z 0;
                      lastResetDate := currentDate;
                      tradingPaused := tradingPaused rm1 |})
          else (true, rm1)
    end.

(** [recordFailure(error)], called when the clock reads [t]. *)
Definition recordFailure (t : Z) (rm : RiskManager) : RiskManager :=
  let n := consecutiveFailures rm + 1 in
  if n >=? maxConsecutiveFailures (risk cfg) then
    {| circuitBreakerOpen := true;
       circuitBreakerOpenTime := t;
       consecutiveFailures := n;
       dailyLoss := dailyLoss rm;
       lastResetDate := lastResetDate rm;
       tradingPaused := tradingPaused rm |}
  else
    {| circuitBreakerOpen := circuitBreakerOpen rm;
       circuitBreakerOpenTime := circuitBreakerOpenTime rm;
       consecutiveFailures := n;
       dailyLoss := dailyLoss rm;
       lastResetDate := lastResetDate rm;
       tradingPaused := tradingPaused rm |}.

(** [recordSuccess()] *)
Definition recordSuccess (rm : RiskManager) : RiskManager :=
  {| circuitBreakerOpen := circuitBreakerOpen rm;
     circuitBreakerOpenTime := circuitBreakerOpenTime rm;
     consecutiveFailures := 0;
     dailyLoss := dailyLoss rm;
     lastResetDate := lastResetDate rm;
     tradingPaused := tradingPaused rm |}.

(** [recordLoss(amount)] *)
Definition recordLoss (a : num) (rm : RiskManager) : RiskManager :=
  {| circuitBreakerOpen := circuitBreakerOpen rm;
     circuitBreakerOpenTime := circuitBreakerOpenTime rm;
     consecutiveFailures := consecutiveFailures rm;
     dailyLoss := (dailyLoss rm + abs a)%num;
     lastResetDate := lastResetDate rm;
     tradingPaused := tradingPaused rm |}.

Definition set_paused (b : bool) (rm : RiskManager) : RiskManager :=
  {| circuitBreakerOpen := circuitBreakerOpen rm;
     circuitBreakerOpenTime := circuitBreakerOpenTime rm;
     consecutiveFailures := consecutiveFailures rm;
     dailyLoss := dailyLoss rm;
     lastResetDate := lastResetDate rm;
     tradingPaused := b |}.

(** [pauseTrading()] and [resumeTrading()] *)
Definition pauseTrading : RiskManager -> RiskManager := set_paused true.
Definition resumeTrading : RiskManager -> RiskManager := set_paused false.

(** The calls that change the risk state, and a run of them. *)
Inductive RiskCall : Type :=
| LoadDailyMetrics (row : option num)
| CanTrade (c : Clock)
| RecordFailure (t : Z)
| RecordSuccess
| RecordLoss (a : num)
| PauseTrading
| ResumeTrading.

Definition risk_call (rm : RiskManager) (k : RiskCall) : RiskManager :=
  match k with
  | LoadDailyMetrics row => loadDailyMetrics row rm
  | CanTrade c => snd (canTrade c rm)
  | RecordFailure t => recordFailure t rm
  | RecordSuccess => recordSuccess rm
  | RecordLoss a => recordLoss a rm
  | PauseTrading => pauseTrading rm
  | ResumeTrading => resumeTrading rm
  end.

Definition risk_run (rm : RiskManager) (ks : list RiskCall) : RiskManager :=
  fold_left risk_call ks rm.

(** [n] consecutive [recordFailure] calls at the times [ts]. *)
Definition recordFailures (ts : list Z) (rm : RiskManager) : RiskManager :=
  fold_left (fun r t => recordFailure t r) ts rm.

(** *** Validation of one opportunity *)

Definition transactionValue (o : EnhancedOpportunity) : num :=
  (buyPrice (opp o) * amount (opp o))%num.

Definition checkProfitThreshold (o : EnhancedOpportunity) : Validation :=
  let minProfit := minProfitUSD (trading cfg) in
  {| passed := (netProfit (analysis o) >=? minProfit)%num;
     reason := "Net profit must be >= minProfitUSD" |}.

Definition checkSlippageTolerance (o : EnhancedOpportunity) : Validation :=
  let maxSlippage := maxSlippagePercent (trading cfg) in
  let estimatedSlippage :=
    (slippageImpact (analysis o) / (buyPrice (opp o) * amount (opp o))
     * of_Z 100)%num in
  {| passed := (estimatedSlippage <=? maxSlippage)%num;
     reason := "Slippage must be <= maxSlippagePercent" |}.

Definition checkLiquidityRequirements (o : EnhancedOpportunity) : Validation :=
  let minLiquidity := minLiquidityUSD (risk cfg) in
  {| passed := (transactionValue o <=? minLiquidity * dec 1 10)%num;
     reason := "Transaction value exceeds liquidity threshold" |}.

Definition checkTransactionValue (o : EnhancedOpportunity) : Validation :=
  let maxValue := maxTransactionValue (trading cfg) in
  {| passed := (transactionValue o <=? maxValue)%num;
     reason := "Transaction value must be <= maxTransactionValue" |}.

(** The body is the constant the source returns: no list of tokens is
    consulted. *)
Definition checkTokenSafety (o : EnhancedOpportunity) : Validation :=
  {| passed := true;
     reason := "Token safety check passed" |}.

Definition validations (o : EnhancedOpportunity) : list Validation :=
  [ checkProfitThreshold o;
    checkSlippageTolerance o;
    checkLiquidityRequirements o;
    checkTransactionValue o;
    checkTokenSafety o ].

(** [failedChecks]: the reasons of the checks that did not pass. *)
Definition failedChecks (o : EnhancedOpportunity) : list string :=
  map reason (filter (fun r => passed r = false) (validations o)).

(** [validateOpportunity(opportunity)] *)
Definition validateOpportunity (o : EnhancedOpportunity) : bool :=
  forallb passed (validations o).

End Risk.

(** ** Profitability estimator ([src/services/ProfitCalculator.js]) *)

(** What a call may end with: a value, or a thrown error. *)
Inductive result (A : Type) : Type :=
| Ok (a : A)
| Throw (msg : string).
Arguments Ok {A} a.
Arguments Throw {A} msg.

Record ProfitCalculator : Type := {
  gasPrice : option Z;          (* wei; [null] at construction *)
  lastGasPriceUpdate : Z
}.

Definition ProfitCalculator_new : ProfitCalculator :=
  {| gasPrice := None; lastGasPriceUpdate := 0 |}.

Definition gasPriceUpdateInterval : Z := 30000.

(** [provider.getFeeData()] *)
Record FeeData : Type := {
  fd_gasPrice : option Z;
  fd_maxFeePerGas : option Z
}.

(** What [fetchTokenPairPrice] resolves to; a field the chosen source does
    not supply reads as [NaN] after [parseFloat]. *)
Record PriceData : Type := {
  pd_price : num;
  reserveA : num;
  reserveB : num
}.

(** The answers of the outside world during one estimation.  [None] stands
    for a rejected promise. *)
Record CostFeeds : Type := {
  feed_now : Z;
  feed_feeData : option FeeData;
  feed_ethPrice : option num;
  feed_fetcher : bool;   (* [new DEXPriceFetcher()] succeeded *)
  feed_pair : DexConfig -> string -> option PriceData
}.

(** JavaScript's [a || b] on an optional big integer: [null] and [0n] are
    falsy. *)
Definition or_else (a : option Z) (b : Z) : Z :=
  match a with
  | Some z => if z =? 0 then b else z
  | None => b
  end.

Definition default_gas_price : Z := 20000000000.

Section Profit.

Variable cfg : Config.

(** [updateGasPrice()] *)
Definition updateGasPrice (f : CostFeeds) (pc : ProfitCalculator)
  : ProfitCalculator :=
  if feed_now f - lastGasPriceUpdate pc <? gasPriceUpdateInterval then pc
  else
    match feed_feeData f with
    | Some fd =>
        {| gasPrice :=
             Some (or_else (fd_gasPrice fd)
                     (or_else (fd_maxFeePerGas fd) default_gas_price));
           lastGasPriceUpdate := feed_now f |}
    | None => pc
    end.

(** [getETHPriceUSD()] *)
Definition getETHPriceUSD (f : CostFeeds) : num :=
  match feed_ethPrice f with
  | Some p => p
  | None => of_Z 2000
  end.

(** [estimateGasFees(opportunity)] *)
Definition estimateGasFees (f : CostFeeds) (pc : ProfitCalculator) : num :=
  let baseGasLimit := gasLimit cfg in
  let gasLimit' :=
    floor (baseGasLimit *
           (of_Z 1 + gasBufferPercent (trading cfg) / of_Z 100))%num in
  match to_BigInt gasLimit' with
  | Some gl =>
      let gasCost := gl * or_else (gasPrice pc) default_gas_price in
      let ethPriceUSD := getETHPriceUSD f in
      let gasCostETH := Fin (gasCost # 1000000000000000000) in
      (gasCostETH * ethPriceUSD)%num
  | None => of_Z 50
  end.

(** [calculatePlatformFees(buyAmount, sellAmount, buyDEX, sellDEX)] *)
Definition calculatePlatformFees (buyAmt sellAmt : num) (buyDex sellDex : string)
  : num :=
  match dexes cfg !! buyDex, dexes cfg !! sellDex with
  | Some buyDEXConfig, Some sellDEXConfig =>
      let buyFee := (buyAmt * fee buyDEXConfig)%num in
      let sellFee := (sellAmt * fee sellDEXConfig)%num in
      (buyFee + sellFee)%num
  | _, _ => ((buyAmt + sellAmt) * dec 3 1000)%num
  end.

(** [DEXPriceFetcher.estimateSlippageImpact(dexConfig, tokenPair, amount)],
    reduced to its [slippagePercent]. *)
Definition estimateSlippageImpact (f : CostFeeds) (dexConfig : option DexConfig)
    (pair : string) (amt : num) : num :=
  match dexConfig ≫= (fun d => feed_pair f d pair) with
  | Some priceData =>
      let amountOut :=
        (amt * reserveB priceData / (reserveA priceData + amt))%num in
      let expectedAmountOut := (amt * pd_price priceData)%num in
      let slippage :=
        (abs (expectedAmountOut - amountOut) / expectedAmountOut)%num in
      (slippage * of_Z 100)%num
  | None => maxSlippagePercent (trading cfg)
  end.

(** [calculateSlippageImpact(opportunity)] *)
Definition calculateSlippageImpact (f : CostFeeds) (o : Opportunity) : num :=
  if feed_fetcher f then
    let buySlippage :=
      estimateSlippageImpact f (dexes cfg !! buyDEX o) (tokenPair o) (amount o) in
    let sellSlippage :=
      estimateSlippageImpact f (dexes cfg !! sellDEX o) (tokenPair o) (amount o) in
    let totalSlippagePercent := (buySlippage + sellSlippage)%num in
    (buyPrice o * amount o * (totalSlippagePercent / of_Z 100))%num
  else
    (buyPrice o * amount o
     * (slippageTolerancePercent (trading cfg) / of_Z 100))%num.

(** [calculateNetProfit(opportunity)]: the result, and the calculator with
    its refreshed gas price.  Reading [.fee] of a venue that is not in
    [config.dexes] throws a [TypeError], which the [catch] block logs and
    throws again. *)
Definition calculateNetProfit (f : CostFeeds) (pc : ProfitCalculator)
    (o : Opportunity) : result ProfitAnalysis * ProfitCalculator :=
  let grossProfit' := ((sellPrice o - buyPrice o) * amount o)%num in
  let pc1 := updateGasPrice f pc in
  let gasEstimate' := estimateGasFees f pc1 in
  let platformFees' :=
    calculatePlatformFees (buyPrice o * amount o)%num
      (sellPrice o * amount o)%num (buyDEX o) (sellDEX o) in
  let slippageImpact' := calculateSlippageImpact f o in
  let netProfit' :=
    (grossProfit' - gasEstimate' - platformFees' - slippageImpact')%num in
  let profitMargin' :=
    if (netProfit' >? of_Z 0)%num
    then (netProfit' / (buyPrice o * amount o) * of_Z 100)%num
    else of_Z 0 in
  match dexes cfg !! buyDEX o, dexes cfg !! sellDEX o with
  | Some bd, Some sd =>
      (Ok {| grossProfit := grossProfit';
             gasEstimate := gasEstimate';
             platformFees := platformFees';
             slippageImpact := slippageImpact';
             netProfit := netProfit';
             profitMargin := profitMargin';
             profitable := (netProfit' >=? minProfitUSD (trading cfg))%num;
             buyAmount := (buyPrice o * amount o)%num;
             sellAmount := (sellPrice o * amount o)%num;
             buyFee := (buyPrice o * amount o * fee bd)%num;
             sellFee := (sellPrice o * amount o * fee sd)%num |}, pc1)
  | _, _ =>
      (Throw "TypeError: Cannot read properties of undefined (reading 'fee')",
       pc1)
  end.

(** [calculateMinimumProfitThreshold(amount, tokenPrice)] *)
Definition calculateMinimumProfitThreshold (amt tokenPrice : num) : num :=
  let transactionValueUSD := (amt * tokenPrice)%num in
  let baseMinProfit := minProfitUSD (trading cfg) in
  max baseMinProfit (transactionValueUSD * dec 5 1000)%num.

End Profit.

(** ** Detector and dispatcher ([src/services/ArbitrageEngine.js]) *)

(** One entry of [allPrices[dex]]; a [null] or absent entry is an absent
    key of the map. *)
Record Quote : Type := {
  price : num;
  observedAt : Z
}.

(** [allPrices]: the venues in the order of [Object.keys], each with its
    quotes by token pair. *)
Definition AllPrices : Type := list (string * gmap string Quote).

Record Metrics : Type := {
  opportunitiesFound : Z;
  tradesExecuted : Z;
  successfulTrades : Z;
  totalProfit : num;
  averageExecutionTime : num
}.

(** What the settlement contract answers to one attempt. *)
Inductive Settlement : Type :=
| SubmitRejected (error : string)
    (* [contractInteraction.executeArbitrage] throws *)
| ConfirmFailed (transactionHash error : string)
    (* [waitForTransaction] throws: timeout, or a receipt whose status
       is not 1 *)
| Confirmed (transactionHash : string) (actualProfit : num)
    (executionTime : Z).
    (* a receipt, with what [calculateActualProfit] resolves to and
       [Date.now() - startTime] *)

(** The observable effects of the engine on its collaborators, most recent
    first. *)
Inductive Effect : Type :=
| Submitted (opportunityId : string)
    (* a call of [contractInteraction.executeArbitrage] *)
| OpportunityRecorded (opportunityId status : string)  (* database row *)
| TradeRecorded (opportunityId status : string)        (* database row *)
| Emitted (event opportunityId : string).      (* EventEmitter *)

#[global] Instance Effect_eq_dec : EqDecision Effect.
Proof. solve_decision. Defined.

Record ArbitrageEngine : Type := {
  profitCalculator : ProfitCalculator;
  riskManager : RiskManager;
  isRunning : bool;
  tokenPairs : list string;
  opportunities : gmap string Opportunity;
  metrics : Metrics;
  effects : list Effect
}.

(** The outside world during the processing of one opportunity. *)
Record ProcessEnv : Type := {
  env_feeds : CostFeeds;
  env_settlement : Settlement;
  env_failure_time : Z   (* [Date.now()] inside [recordFailure] *)
}.

(** The object returned by [getMetrics()]. *)
Record MetricsReport : Type := {
  report_metrics : Metrics;
  report_isRunning : bool;
  activeOpportunities : nat;
  tokenPairsMonitored : nat;
  averageSuccessRate : num
}.

Section Engine.

Variable cfg : Config.

(** [constructor()] *)
Definition ArbitrageEngine_new (c : Clock) : ArbitrageEngine := {|
  profitCalculator := ProfitCalculator_new;
  riskManager := RiskManager_new c;
  isRunning := false;
  tokenPairs := ["WETH/USDC"; "WETH/USDT"; "WETH/DAI"]%string;
  opportunities := ∅;
  metrics := {| opportunitiesFound := 0;
                tradesExecuted := 0;
                successfulTrades := 0;
                totalProfit := of_Z 0;
                averageExecutionTime := of_Z 0 |};
  effects := []
|}.

(** [loadTokenPairs()]: [rows] are the pairs the query returns, [None]
    when it fails. *)
Definition loadTokenPairs (rows : option (list string))
    (eng : ArbitrageEngine) : ArbitrageEngine :=
  match rows with
  | Some (p :: ps) =>
      {| profitCalculator := profitCalculator eng;
         riskManager := riskManager eng;
         isRunning := isRunning eng;
         tokenPairs := p :: ps;
         opportunities := opportunities eng;
         metrics := metrics eng;
         effects := effects eng |}
  | _ => eng
  end.

(** [initialize()]; when the contract connection fails the error is thrown
    again before the risk manager and the token pairs are loaded. *)
Definition initialize (contract_ok : bool) (loss_row : option num)
    (rows : option (list string)) (eng : ArbitrageEngine) : ArbitrageEngine :=
  if contract_ok then
    loadTokenPairs rows
      {| profitCalculator := profitCalculator eng;
         riskManager := loadDailyMetrics loss_row (riskManager eng);
         isRunning := isRunning eng;
         tokenPairs := tokenPairs eng;
         opportunities := opportunities eng;
         metrics := metrics eng;
         effects := effects eng |}
  else eng.

(** The flag set by [startMonitoring()] and cleared by
    [stopMonitoring()]. *)
Definition set_running (b : bool) (eng : ArbitrageEngine) : ArbitrageEngine :=
  {| profitCalculator := profitCalculator eng;
     riskManager := riskManager eng;
     isRunning := b;
     tokenPairs := tokenPairs eng;
     opportunities := opportunities eng;
     metrics := metrics eng;
     effects := effects eng |}.

(** [calculateOptimalAmount(tokenPair, buyPrice, sellPrice)] *)
Definition calculateOptimalAmount (pair : string) (buy sell : num) : num :=
  let maxTransactionValueUSD := maxTransactionValue (trading cfg) in
  let optimalAmountUSD := min maxTransactionValueUSD (of_Z 1000) in
  (optimalAmountUSD / buy)%num.

(** [createOpportunity(tokenPair, buyDEX, sellDEX, buyPrice, sellPrice)]
    when the clock reads [t]; [None] is the source's [null]. *)
Definition createOpportunity (t : Z) (pair buyDex sellDex : string)
    (buy sell : num) : option Opportunity :=
  let priceDifference' := (sell - buy)%num in
  let priceDifferencePercent' := (priceDifference' / buy * of_Z 100)%num in
  if (priceDifferencePercent' <? dec 1 2)%num then None
  else
    let amount' := calculateOptimalAmount pair buy sell in
    Some {| id := pair +:+ "_" +:+ buyDex +:+ "_" +:+ sellDex +:+ "_"
                  +:+ pretty t;
            tokenPair := pair;
            buyDEX := buyDex;
            sellDEX := sellDex;
            buyPrice := buy;
            sellPrice := sell;
            amount := amount';
            priceDifference := priceDifference';
            priceDifferencePercent := priceDifferencePercent';
            timestamp := t |}.

(** The body of the two inner loops for one pair of venues: both
    directions, in the order they are pushed. *)
Definition compare_venues (t : Z) (pair : string)
    (d1 d2 : string * gmap string Quote) : list Opportunity :=
  match d1.2 !! pair, d2.2 !! pair with
  | Some price1, Some price2 =>
      let opp1 := createOpportunity t pair d1.1 d2.1 (price price1) (price price2) in
      let opp2 := createOpportunity t pair d2.1 d1.1 (price price2) (price price1) in
      option_list opp1 ++ option_list opp2
  | _, _ => []
  end.

(** The loops over [i] and [j = i + 1 ..]. *)
Fixpoint venue_pairs (t : Z) (pair : string) (ds : AllPrices)
  : list Opportunity :=
  match ds with
  | [] => []
  | d1 :: rest =>
      flat_map (compare_venues t pair d1) rest ++ venue_pairs t pair rest
  end.

(** [findArbitrageOpportunities(allPrices)]; the clock reads [t] during
    the whole (synchronous) search. *)
Definition findArbitrageOpportunities (t : Z) (pairs : list string)
    (allPrices : AllPrices) : list Opportunity :=
  flat_map (fun pair => venue_pairs t pair allPrices) pairs.

Definition with_effect (e : Effect) (eng : ArbitrageEngine) : ArbitrageEngine :=
  {| profitCalculator := profitCalculator eng;
     riskManager := riskManager eng;
     isRunning := isRunning eng;
     tokenPairs := tokenPairs eng;
     opportunities := opportunities eng;
     metrics := metrics eng;
     effects := e :: effects eng |}.

Definition with_opportunities (m : gmap string Opportunity)
    (eng : ArbitrageEngine) : ArbitrageEngine :=
  {| profitCalculator := profitCalculator eng;
     riskManager := riskManager eng;
     isRunning := isRunning eng;
     tokenPairs := tokenPairs eng;
     opportunities := m;
     metrics := metrics eng;
     effects := effects eng |}.

Definition with_metrics (m : Metrics) (eng : ArbitrageEngine)
  : ArbitrageEngine :=
  {| profitCalculator := profitCalculator eng;
     riskManager := riskManager eng;
     isRunning := isRunning eng;
     tokenPairs := tokenPairs eng;
     opportunities := opportunities eng;
     metrics := m;
     effects := effects eng |}.

Definition with_riskManager (rm : RiskManager) (eng : ArbitrageEngine)
  : ArbitrageEngine :=
  {| profitCalculator := profitCalculator eng;
     riskManager := rm;
     isRunning := isRunning eng;
     tokenPairs := tokenPairs eng;
     opportunities := opportunities eng;
     metrics := metrics eng;
     effects := effects eng |}.

Definition with_profitCalculator (pc : ProfitCalculator)
    (eng : ArbitrageEngine) : ArbitrageEngine :=
  {| profitCalculator := pc;
     riskManager := riskManager eng;
     isRunning := isRunning eng;
     tokenPairs := tokenPairs eng;
     opportunities := opportunities eng;
     metrics := metrics eng;
     effects := effects eng |}.

(** The metrics update of a confirmed trade. *)
Definition metrics_after_success (actualProfit : num) (executionTime : Z)
    (m : Metrics) : Metrics :=
  let executed := tradesExecuted m + 1 in
  {| opportunitiesFound := opportunitiesFound m;
     tradesExecuted := executed;
     successfulTrades := successfulTrades m + 1;
     totalProfit := (totalProfit m + actualProfit)%num;
     averageExecutionTime :=
       ((averageExecutionTime m * of_Z (executed - 1) + of_Z executionTime)
        / of_Z executed)%num |}.

(** The [catch] block of [executeArbitrage]. *)
Definition arbitrage_failed (tfail : Z) (o : EnhancedOpportunity)
    (eng : ArbitrageEngine) : ArbitrageEngine :=
  let eng1 := with_effect (TradeRecorded (id (opp o)) "failed") eng in
  let eng2 := with_riskManager (recordFailure cfg tfail (riskManager eng1)) eng1 in
  with_effect (Emitted "arbitrageFailed" (id (opp o))) eng2.

(** [executeArbitrage(opportunity)] *)
Definition executeArbitrage (s : Settlement) (tfail : Z)
    (o : EnhancedOpportunity) (eng : ArbitrageEngine) : ArbitrageEngine :=
  let eng0 := with_effect (Submitted (id (opp o))) eng in
  match s with
  | SubmitRejected _ => arbitrage_failed tfail o eng0
  | ConfirmFailed _ _ => arbitrage_failed tfail o eng0
  | Confirmed _ actualProfit executionTime =>
      let eng1 :=
        with_metrics
          (metrics_after_success actualProfit executionTime (metrics eng0))
          eng0 in
      let eng2 := with_effect (TradeRecorded (id (opp o)) "success") eng1 in
      with_effect (Emitted "arbitrageExecuted" (id (opp o))) eng2
  end.

(** [processOpportunity(opportunity)], first part: from the call to the
    first suspension.  [inl] is a call that has already returned (the
    [finally] block included), [inr] one that is suspended with its
    opportunity in [this.opportunities]. *)
Definition processOpportunity_enter (o : Opportunity) (eng : ArbitrageEngine)
  : ArbitrageEngine + ArbitrageEngine :=
  let opportunityId := id o in
  match opportunities eng !! opportunityId with
  | Some _ =>
      (* return; then finally: this.opportunities.delete(opportunity.id) *)
      inl (with_opportunities (delete (id o) (opportunities eng)) eng)
  | None =>
      let eng1 :=
        with_opportunities (<[opportunityId := o]> (opportunities eng)) eng in
      let m := metrics eng1 in
      inr (with_metrics
             {| opportunitiesFound := opportunitiesFound m + 1;
                tradesExecuted := tradesExecuted m;
                successfulTrades := successfulTrades m;
                totalProfit := totalProfit m;
                averageExecutionTime := averageExecutionTime m |} eng1)
  end.

(** [processOpportunity(opportunity)], second part: from the profit
    calculation to the [finally] block. *)
Definition processOpportunity_resume (e : ProcessEnv) (o : Opportunity)
    (eng : ArbitrageEngine) : ArbitrageEngine :=
  let '(r, pc) := calculateNetProfit cfg (env_feeds e) (profitCalculator eng) o in
  let eng1 := with_profitCalculator pc eng in
  let eng2 :=
    match r with
    | Throw _ => eng1   (* logged by the catch block *)
    | Ok profitAnalysis =>
        let enhancedOpportunity := {| opp := o; analysis := profitAnalysis |} in
        let isValid := validateOpportunity cfg enhancedOpportunity in
        if negb isValid then
          with_effect (OpportunityRecorded (id o) "rejected") eng1
        else
          let eng' := with_effect (OpportunityRecorded (id o) "validated") eng1 in
          if profitable profitAnalysis then
            executeArbitrage (env_settlement e) (env_failure_time e)
              enhancedOpportunity eng'
          else eng'
    end in
  with_opportunities (delete (id o) (opportunities eng2)) eng2.

(** [processOpportunity(opportunity)] run without interruption. *)
Definition processOpportunity (e : ProcessEnv) (o : Opportunity)
    (eng : ArbitrageEngine) : ArbitrageEngine :=
  match processOpportunity_enter o eng with
  | inl eng' => eng'
  | inr eng' => processOpportunity_resume e o eng'
  end.

(** [cleanupExpiredOpportunities()] when the clock reads [t]. *)
Definition cleanupExpiredOpportunities (t : Z) (eng : ArbitrageEngine)
  : ArbitrageEngine :=
  let timeout := opportunityTimeoutMs (trading cfg) in
  with_opportunities
    (filter (fun kv => ¬ (t - timestamp kv.2 > timeout)) (opportunities eng))
    eng.

(** [monitoringLoop()]: one cycle, its opportunities processed one after
    the other. *)
Definition monitoringLoop (c : Clock) (allPrices : AllPrices)
    (env : Opportunity -> ProcessEnv) (eng : ArbitrageEngine)
  : ArbitrageEngine :=
  let '(ok, rm) := canTrade cfg c (riskManager eng) in
  let eng1 := with_riskManager rm eng in
  if negb ok then eng1
  else
    let found := findArbitrageOpportunities (now c) (tokenPairs eng1) allPrices in
    let eng2 := fold_left (fun g o => processOpportunity (env o) o g) found eng1 in
    cleanupExpiredOpportunities (now c) eng2.

(** [getMetrics()] *)
Definition getMetrics (eng : ArbitrageEngine) : MetricsReport :=
  let m := metrics eng in
  {| report_metrics := m;
     report_isRunning := isRunning eng;
     activeOpportunities := size (opportunities eng);
     tokenPairsMonitored := length (tokenPairs eng);
     averageSuccessRate :=
       if tradesExecuted m >? 0
       then (of_Z (successfulTrades m) / of_Z (tradesExecuted m) * of_Z 100)%num
       else of_Z 0 |}.

(** The calls that act on an engine, and the states they reach from a
    freshly constructed one. *)
Inductive EngineCall : Type :=
| Initialize (contract_ok : bool) (loss_row : option num)
    (rows : option (list string))
| SetRunning (b : bool)
| Enter (o : Opportunity)
| Resume (e : ProcessEnv) (o : Opportunity)
| Execute (s : Settlement) (tfail : Z) (o : EnhancedOpportunity)
| Cleanup (t : Z)
| Loop (c : Clock) (allPrices : AllPrices) (env : Opportunity -> ProcessEnv)
| Risk (k : RiskCall).

Definition engine_call (eng : ArbitrageEngine) (k : EngineCall)
  : ArbitrageEngine :=
  match k with
  | Initialize contract_ok loss_row rows =>
      initialize contract_ok loss_row rows eng
  | SetRunning b => set_running b eng
  | Enter o =>
      match processOpportunity_enter o eng with inl g | inr g => g end
  | Resume e o => processOpportunity_resume e o eng
  | Execute s tfail o => executeArbitrage s tfail o eng
  | Cleanup t => cleanupExpiredOpportunities t eng
  | Loop c allPrices env => monitoringLoop c allPrices env eng
  | Risk k => with_riskManager (risk_call cfg (riskManager eng) k) eng
  end.

Inductive reachable : ArbitrageEngine -> Prop :=
| reachable_new c : reachable (ArbitrageEngine_new c)
| reachable_call eng k : reachable eng -> reachable (engine_call eng k).

(** The number of settlement attempts made for an opportunity id. *)
Definition settlement_attempts (i : string) (eng : ArbitrageEngine) : nat :=
  length (filter (fun e => e = Submitted i) (effects eng)).

End Engine.

(** ** Scenarios and auxiliary notions used by the statements *)

(** A snapshot with one quote per venue for WETH/USDC. *)
Definition two_venues (p1 p2 : num) : AllPrices :=
  [ ("uniswap"%string,
     {[ "WETH/USDC"%string := {| price := p1; observedAt := 0 |} ]});
    ("sushiswap"%string,
     {[ "WETH/USDC"%string := {| price := p2; observedAt := 0 |} ]}) ].

(** The tokens named by a pair such as ["WETH/USDC"]
    ([tokenPair.split('/')]). *)
Fixpoint split_slash (s : string) : list string :=
  match s with
  | EmptyString => [EmptyString]
  | String c rest =>
      if Ascii.eqb c "/"%char then EmptyString :: split_slash rest
      else match split_slash rest with
           | tok :: toks => String c tok :: toks
           | [] => [String c EmptyString]
           end
  end.

(** The rule of the specification, in its words: an opportunity is to be
    rejected when either leg token is on the blacklist. *)
Definition spec_leg_blacklisted (blacklist : list string)
    (o : EnhancedOpportunity) : Prop :=
  exists tok, In tok (split_slash (tokenPair (opp o))) /\ In tok blacklist.

(** The opportunity of the risk manager's first test
    ([createMockOpportunity] with a net profit of 15 and a slippage impact
    of 1), on the pair given. *)
Definition mock_opportunity (pair : string) : EnhancedOpportunity := {|
  opp := {| id := "test_opportunity_1"; tokenPair := pair;
            buyDEX := "uniswap"; sellDEX := "sushiswap";
            buyPrice := of_Z 2000; sellPrice := of_Z 2010; amount := of_Z 1;
            priceDifference := of_Z 10; priceDifferencePercent := dec 1 2;
            timestamp := 0 |};
  analysis := {| grossProfit := of_Z 10; gasEstimate := of_Z 5;
                 platformFees := of_Z 1; slippageImpact := of_Z 1;
                 netProfit := of_Z 15; profitMargin := dec 175 1000;
                 profitable := true;
                 buyAmount := of_Z 2000; sellAmount := of_Z 2010;
                 buyFee := of_Z 6; sellFee := dec 603 100 |}
|}.

(** A pool deep enough for the slippage of a 1000 USD trade to be
    negligible. *)
Definition deep_pool : PriceData :=
  {| pd_price := of_Z 2000;
     reserveA := of_Z 1000000;
     reserveB := of_Z 2000000000 |}.

(** Gas and ETH price feeds down (their fallbacks apply), reserves
    available, settlement confirmed. *)
Definition settled_env : ProcessEnv :=
  {| env_feeds := {| feed_now := 0; feed_feeData := None;
                     feed_ethPrice := None; feed_fetcher := true;
                     feed_pair := fun _ _ => Some deep_pool |};
     env_settlement := Confirmed "0x123" (of_Z 0) 1200;
     env_failure_time := 0 |}.

(** The candidate the detector creates at time 0 from 2000 on uniswap and
    2100 on sushiswap. *)
Definition weth_usdc_opportunity : Opportunity :=
  {| id := "WETH/USDC_uniswap_sushiswap_0";
     tokenPair := "WETH/USDC";
     buyDEX := "uniswap"; sellDEX := "sushiswap";
     buyPrice := of_Z 2000; sellPrice := of_Z 2100;
     amount := calculateOptimalAmount config "WETH/USDC" (of_Z 2000) (of_Z 2100);
     priceDifference := (of_Z 2100 - of_Z 2000)%num;
     priceDifferencePercent :=
       ((of_Z 2100 - of_Z 2000) / of_Z 2000 * of_Z 100)%num;
     timestamp := 0 |}.

(** The two trade counters agree and are not negative. *)
Definition counters_agree (m : Metrics) : Prop :=
  tradesExecuted m = successfulTrades m /\ 0 <= tradesExecuted m.

(** ** Further operations of the risk gate *)

(** The object returned by [getRiskMetrics()].  Its [canTrade] field holds
    the promise returned by [this.canTrade()]; the record keeps the value
    the promise resolves to. *)
Record RiskMetrics : Type := {
  report_circuitBreakerOpen : bool;
  report_consecutiveFailures : Z;
  report_dailyLoss : num;
  report_maxDailyLoss : num;
  report_tradingPaused : bool;
  report_canTrade : bool
}.

Section RiskReport.

Variable cfg : Config.

(** [getRiskMetrics()]: the fields of the object literal are read in the
    order they are written, the call of [canTrade] last; the body of
    [canTrade] has no [await], so it has run to its end, assignments
    included, when the object is returned. *)
Definition getRiskMetrics (c : Clock) (rm : RiskManager)
  : RiskMetrics * RiskManager :=
  let open := circuitBreakerOpen rm in
  let failures := consecutiveFailures rm in
  let loss := dailyLoss rm in
  let paused := tradingPaused rm in
  let '(ok, rm') := canTrade cfg c rm in
  ({| report_circuitBreakerOpen := open;
      report_consecutiveFailures := failures;
      report_dailyLoss := loss;
      report_maxDailyLoss := maxDailyLoss (risk cfg);
      report_tradingPaused := paused;
      report_canTrade := ok |}, rm').

(** A run of [recordLoss] calls. *)
Definition recordLosses (amounts : list num) (rm : RiskManager) : RiskManager :=
  fold_left (fun r a => recordLoss a r) amounts rm.

End RiskReport.

(** The sum of the absolute values of a list of rationals. *)
Definition sum_abs (l : list Q) : Q :=
  fold_right (fun a acc => (Qabs a + acc)%Q) 0%Q l.

Definition is_recordSuccess (k : RiskCall) : bool :=
  match k with RecordSuccess => true | _ => false end.

(** The invariant of the breaker: when it is open the failure counter has
    reached the threshold; the counter is never negative. *)
Definition breaker_invariant (cfg : Config) (rm : RiskManager) : Prop :=
  (circuitBreakerOpen rm = true ->
   maxConsecutiveFailures (risk cfg) <= consecutiveFailures rm)
  /\ 0 <= consecutiveFailures rm.

(** ** Runs of executions *)

(** A run of [executeArbitrage] calls, each with its settlement answer, the
    clock reading of its failure handler and its opportunity. *)
Definition execute_all (cfg : Config)
    (xs : list (Settlement * Z * EnhancedOpportunity))
    (eng : ArbitrageEngine) : ArbitrageEngine :=
  fold_left (fun g x => executeArbitrage cfg x.1.1 x.1.2 x.2 g) xs eng.

(** The execution times of the confirmed settlements of a run. *)
Definition confirmed_time (x : Settlement * Z * EnhancedOpportunity)
  : option Z :=
  match x.1.1 with
  | Confirmed _ _ executionTime => Some executionTime
  | _ => None
  end.

Definition confirmed_times (xs : list (Settlement * Z * EnhancedOpportunity))
  : list Z :=
  omap confirmed_time xs.

Definition sum_Z (l : list Z) : Z := fold_right Z.add 0 l.

(** ** Sizing under rounding *)

(** The unit roundoff of binary64: [2 ^ -53]. *)
Definition unit_roundoff : Q := 1 # 9007199254740992.

(** The detector's sizing and the gate's transaction-value check with the
    rounding of doubles made explicit: [rnd] takes the exact result of an
    arithmetic operation to the double the operation returns.  The range
    of exponents is not bounded: overflow and underflow are not part of
    this embedding. *)
Module Rounded.

Section WithRounding.

Variable rnd : Q -> Q.
Variable cfg : Config.

Definition rounded (a : num) : num :=
  match a with
  | Fin q => Fin (rnd q)
  | _ => a
  end.

(** [calculateOptimalAmount(tokenPair, buyPrice, sellPrice)];
    [Math.min] returns one of its arguments and does not round. *)
Definition calculateOptimalAmount (pair : string) (buy sell : num) : num :=
  let maxTransactionValueUSD := maxTransactionValue (trading cfg) in
  let optimalAmountUSD := min maxTransactionValueUSD (of_Z 1000) in
  rounded (optimalAmountUSD / buy)%num.

(** [createOpportunity(tokenPair, buyDEX, sellDEX, buyPrice, sellPrice)] *)
Definition createOpportunity (t : Z) (pair buyDex sellDex : string)
    (buy sell : num) : option Opportunity :=
  let priceDifference' := rounded (sell - buy)%num in
  let priceDifferencePercent' :=
    rounded (rounded (priceDifference' / buy) * of_Z 100)%num in
  if (priceDifferencePercent' <? dec 1 2)%num then None
  else
    let amount' := calculateOptimalAmount pair buy sell in
    Some {| id := pair +:+ "_" +:+ buyDex +:+ "_" +:+ sellDex +:+ "_"
                  +:+ pretty t;
            tokenPair := pair;
            buyDEX := buyDex;
            sellDEX := sellDex;
            buyPrice := buy;
            sellPrice := sell;
            amount := amount';
            priceDifference := priceDifference';
            priceDifferencePercent := priceDifferencePercent';
            timestamp := t |}.

(** [opportunity.buyPrice * opportunity.amount] *)
Definition transactionValue (o : EnhancedOpportunity) : num :=
  rounded (buyPrice (opp o) * amount (opp o))%num.

(** [checkTransactionValue(opportunity)] *)
Definition checkTransactionValue (o : EnhancedOpportunity) : Validation :=
  let maxValue := maxTransactionValue (trading cfg) in
  {| passed := (transactionValue o <=? maxValue)%num;
     reason := "Transaction value must be <= maxTransactionValue" |}.

End WithRounding.

End Rounded.

(** The same three functions on binary64 doubles, the numbers the source
    computes with.  [maxTransactionValue] stands for
    [config.trading.maxTransactionValue]. *)
Module Binary64.

Record Opportunity : Type := {
  id : string;
  tokenPair : string;
  buyDEX : string;
  sellDEX : string;
  buyPrice : float;
  sellPrice : float;
  amount : float;
  priceDifference : float;
  priceDifferencePercent : float;
  timestamp : Z
}.

(** [Math.min(a, b)]: [NaN] when an argument is [NaN], and [-0] below
    [+0]. *)
Definition Math_min (a b : float) : float :=
  if PrimFloat.is_nan a then a
  else if PrimFloat.is_nan b then b
  else if PrimFloat.ltb a b then a
  else if PrimFloat.ltb b a then b
  else if PrimFloat.get_sign a then a else b.

(** [calculateOptimalAmount(tokenPair, buyPrice, sellPrice)] *)
Definition calculateOptimalAmount (maxTransactionValue : float)
    (pair : string) (buy sell : float) : float :=
  let maxTransactionValueUSD := maxTransactionValue in
  let optimalAmountUSD := Math_min maxTransactionValueUSD 1000%float in
  PrimFloat.div optimalAmountUSD buy.

(** [createOpportunity(tokenPair, buyDEX, sellDEX, buyPrice, sellPrice)] *)
Definition createOpportunity (maxTransactionValue : float) (t : Z)
    (pair buyDex sellDex : string) (buy sell : float) : option Opportunity :=
  let priceDifference' := PrimFloat.sub sell buy in
  let priceDifferencePercent' :=
    PrimFloat.mul (PrimFloat.div priceDifference' buy) 100%float in
  if PrimFloat.ltb priceDifferencePercent' 0.5%float then None
  else
    let amount' := calculateOptimalAmount maxTransactionValue pair buy sell in
    Some {| id := pair +:+ "_" +:+ buyDex +:+ "_" +:+ sellDex +:+ "_"
                  +:+ pretty t;
            tokenPair := pair;
            buyDEX := buyDex;
            sellDEX := sellDex;
            buyPrice := buy;
            sellPrice := sell;
            amount := amount';
            priceDifference := priceDifference';
            priceDifferencePercent := priceDifferencePercent';
            timestamp := t |}.

(** [opportunity.buyPrice * opportunity.amount] *)
Definition transactionValue (o : Opportunity) : float :=
  PrimFloat.mul (buyPrice o) (amount o).

(** [checkTransactionValue(opportunity)] *)
Definition checkTransactionValue (maxTransactionValue : float)
    (o : Opportunity) : Validation :=
  let maxValue := maxTransactionValue in
  {| passed := PrimFloat.leb (transactionValue o) maxValue;
     reason := "Transaction value must be <= maxTransactionValue" |}.

End Binary64.

(** * Properties *)

(** ** Circuit breaker *)

Section RiskFacts.

Variable cfg : Config.

Lemma recordFailures_app ts1 ts2 rm :
  recordFailures cfg (ts1 ++ ts2) rm
  = recordFailures cfg ts2 (recordFailures cfg ts1 rm).
Proof. apply fold_left_app. Qed.

Lemma recordFailure_counter t rm :
  consecutiveFailures (recordFailure cfg t rm) = consecutiveFailures rm + 1.
Proof. unfold recordFailure. by destruct (_ >=? _). Qed.

Lemma recordFailure_paused t rm :
  tradingPaused (recordFailure cfg t rm) = tradingPaused rm.
Proof. unfold recordFailure. by destruct (_ >=? _). Qed.

Lemma recordFailure_dailyLoss t rm :
  dailyLoss (recordFailure cfg t rm) = dailyLoss rm
  /\ lastResetDate (recordFailure cfg t rm) = lastResetDate rm.
Proof. unfold recordFailure. by destruct (_ >=? _). Qed.

Lemma recordFailures_counter ts : forall rm,
  consecutiveFailures (recordFailures cfg ts rm)
  = consecutiveFailures rm + Z.of_nat (length ts).
Proof.
  induction ts as [|t ts IH]; intros rm; cbn [recordFailures fold_left length].
  - lia.
  - unfold recordFailures in IH. rewrite IH, recordFailure_counter. lia.
Qed.

Lemma recordFailures_paused ts : forall rm,
  tradingPaused (recordFailures cfg ts rm) = tradingPaused rm.
Proof.
  induction ts as [|t ts IH]; intros rm; cbn [recordFailures fold_left]; [done|].
  unfold recordFailures in IH. by rewrite IH, recordFailure_paused.
Qed.

(** Below the threshold a failure only counts. *)
Lemma recordFailure_below t rm :
  consecutiveFailures rm + 1 < maxConsecutiveFailures (risk cfg) ->
  circuitBreakerOpen (recordFailure cfg t rm) = circuitBreakerOpen rm
  /\ circuitBreakerOpenTime (recordFailure cfg t rm) = circuitBreakerOpenTime rm.
Proof.
  intros H. unfold recordFailure.
  destruct (Z.geb_spec (consecutiveFailures rm + 1)
              (maxConsecutiveFailures (risk cfg))); [lia|done].
Qed.

(** At the threshold, or past it, a failure opens the breaker and stamps
    the time. *)
Lemma recordFailure_trips t rm :
  maxConsecutiveFailures (risk cfg) <= consecutiveFailures rm + 1 ->
  circuitBreakerOpen (recordFailure cfg t rm) = true
  /\ circuitBreakerOpenTime (recordFailure cfg t rm) = t.
Proof.
  intros H. unfold recordFailure.
  destruct (Z.geb_spec (consecutiveFailures rm + 1)
              (maxConsecutiveFailures (risk cfg))); [done|lia].
Qed.

Lemma recordFailures_below ts : forall rm,
  consecutiveFailures rm + Z.of_nat (length ts)
    < maxConsecutiveFailures (risk cfg) ->
  circuitBreakerOpen (recordFailures cfg ts rm) = circuitBreakerOpen rm.
Proof.
  induction ts as [|t ts IH]; intros rm H; cbn [recordFailures fold_left]; [done|].
  cbn [length] in H. unfold recordFailures in IH. rewrite IH.
  - apply recordFailure_below. lia.
  - rewrite recordFailure_counter. lia.
Qed.

(** A breaker that is open stays open through a failure. *)
Lemma recordFailure_stays_open t rm :
  circuitBreakerOpen rm = true ->
  circuitBreakerOpen (recordFailure cfg t rm) = true.
Proof. intros H. unfold recordFailure. by destruct (_ >=? _). Qed.

(** [canTrade] on an open breaker whose timeout has not elapsed. *)
Lemma canTrade_open_early c rm :
  circuitBreakerOpen rm = true ->
  now c - circuitBreakerOpenTime rm < circuitBreakerTimeoutMs (risk cfg) ->
  canTrade cfg c rm = (false, rm).
Proof.
  intros Ho Ht. unfold canTrade. destruct (tradingPaused rm); [done|].
  rewrite Ho.
  destruct (Z.ltb_spec (now c - circuitBreakerOpenTime rm)
              (circuitBreakerTimeoutMs (risk cfg))); [done|lia].
Qed.

(** [canTrade] on an open breaker whose timeout has elapsed, trading not
    being paused. *)
Lemma canTrade_open_late c rm :
  tradingPaused rm = false ->
  circuitBreakerOpen rm = true ->
  circuitBreakerTimeoutMs (risk cfg) <= now c - circuitBreakerOpenTime rm ->
  circuitBreakerOpen (canTrade cfg c rm).2 = false
  /\ consecutiveFailures (canTrade cfg c rm).2 = 0.
Proof.
  intros Hp Ho Ht. unfold canTrade. rewrite Hp, Ho.
  destruct (Z.ltb_spec (now c - circuitBreakerOpenTime rm)
              (circuitBreakerTimeoutMs (risk cfg))); [lia|].
  cbn [dailyLoss lastResetDate].
  destruct (_ >=? _)%num; [done|].
  by destruct (negb _).
Qed.

(** No call but [canTrade] closes an open breaker. *)
Lemma only_canTrade_closes rm k :
  circuitBreakerOpen rm = true ->
  (forall c, k <> CanTrade c) ->
  circuitBreakerOpen (risk_call cfg rm k) = true.
Proof.
  intros Ho Hk. destruct k as [row|c|t| |a| |]; cbn [risk_call]; try done.
  - by destruct row.
  - by destruct (Hk c).
  - by apply recordFailure_stays_open.
Qed.

End RiskFacts.

(** C1. Starting from a closed breaker (no failure counted, trading not
    paused), [maxConsecutiveFailures] consecutive [recordFailure] calls
    open the breaker, and not one call sooner; [canTrade] then answers
    [false] and changes nothing as long as the timeout has not elapsed;
    a [recordSuccess] before the threshold puts the counter back to zero;
    the first [canTrade] evaluated once the timeout has elapsed closes
    the breaker and zeroes the counter; and no call other than [canTrade]
    closes it. *)
Theorem circuit_breaker_state_machine (cfg : Config) (rm : RiskManager)
    (ts : list Z) (t : Z) :
  circuitBreakerOpen rm = false ->
  consecutiveFailures rm = 0 ->
  tradingPaused rm = false ->
  Z.of_nat (length (ts ++ [t])) = maxConsecutiveFailures (risk cfg) ->
  let opened := recordFailures cfg (ts ++ [t]) rm in
  (circuitBreakerOpen opened = true
   /\ circuitBreakerOpenTime opened = t
   /\ consecutiveFailures opened = maxConsecutiveFailures (risk cfg))
  /\ (forall c, now c - t < circuitBreakerTimeoutMs (risk cfg) ->
        canTrade cfg c opened = (false, opened))
  /\ (forall before after,
        ts ++ [t] = before ++ after -> after <> [] ->
        circuitBreakerOpen (recordFailures cfg before rm) = false
        /\ consecutiveFailures (recordSuccess (recordFailures cfg before rm)) = 0
        /\ circuitBreakerOpen (recordSuccess (recordFailures cfg before rm)) = false)
  /\ (forall c, circuitBreakerTimeoutMs (risk cfg) <= now c - t ->
        circuitBreakerOpen (canTrade cfg c opened).2 = false
        /\ consecutiveFailures (canTrade cfg c opened).2 = 0)
  /\ (forall k, (forall c, k <> CanTrade c) ->
        circuitBreakerOpen (risk_call cfg opened k) = true).
Proof.
  intros Hclosed Hzero Hpaused Hlen opened.
  assert (Hopen : circuitBreakerOpen opened = true
                  /\ circuitBreakerOpenTime opened = t).
  { unfold opened. rewrite recordFailures_app. cbn [recordFailures fold_left].
    apply recordFailure_trips. fold (recordFailures cfg ts rm).
    rewrite recordFailures_counter, Hzero.
    rewrite length_app in Hlen. cbn [length] in Hlen. lia. }
  destruct Hopen as [Hopen Htime].
  assert (Hp : tradingPaused opened = false).
  { unfold opened. by rewrite recordFailures_paused. }
  split; [|split; [|split; [|split]]].
  - repeat split; try done.
    unfold opened. rewrite recordFailures_counter, Hzero. lia.
  - intros c Hc. apply canTrade_open_early; [done|]. by rewrite Htime.
  - intros before after Heq Hne.
    assert (Hb : circuitBreakerOpen (recordFailures cfg before rm) = false).
    { rewrite recordFailures_below; [done|].
      rewrite Hzero, <- Hlen, Heq, length_app.
      destruct after; [done|]. cbn [length]. lia. }
    by rewrite <- Hb.
  - intros c Hc. apply canTrade_open_late; [done|done|]. by rewrite Htime.
  - intros k Hk. by apply only_canTrade_closes.
Qed.

(** C1 on the configured values: five failures at times 1 .. 5. *)
Lemma circuit_breaker_state_machine_witness :
  let rm := RiskManager_new {| now := 0; toDateString := "Mon Jan 01 2024" |} in
  let opened := recordFailures config [1; 2; 3; 4; 5] rm in
  circuitBreakerOpen opened = true
  /\ canTrade config {| now := 300004; toDateString := "Mon Jan 01 2024" |} opened
     = (false, opened)
  /\ circuitBreakerOpen
       (canTrade config {| now := 300005; toDateString := "Mon Jan 01 2024" |}
          opened).2 = false.
Proof.
  intros rm opened.
  destruct (circuit_breaker_state_machine config rm [1; 2; 3; 4] 5)
    as [[Ho _] [Hearly [_ [Hlate _]]]]; try reflexivity.
  split; [exact Ho|]. split.
  - apply Hearly. cbn. lia.
  - apply Hlate. cbn. lia.
Defined.

(** ** Daily loss cap *)

Section DailyLoss.

Variable cfg : Config.

(** With the daily loss at the cap [canTrade] answers [false] whatever the
    clock reads, and leaves the accumulated loss and the reset date as they
    are: the cap is tested before the date. *)
Lemma canTrade_at_cap c rm :
  (dailyLoss rm >=? maxDailyLoss (risk cfg))%num = true ->
  (canTrade cfg c rm).1 = false
  /\ dailyLoss (canTrade cfg c rm).2 = dailyLoss rm
  /\ lastResetDate (canTrade cfg c rm).2 = lastResetDate rm.
Proof.
  intros Hcap. unfold canTrade. destruct (tradingPaused rm); [done|].
  destruct (circuitBreakerOpen rm).
  - destruct (_ <? _); [done|]. cbn [dailyLoss lastResetDate]. by rewrite Hcap.
  - by rewrite Hcap.
Qed.

(** Below the cap, with trading enabled and the breaker closed, the first
    [canTrade] of a new calendar day zeroes the loss and records the day. *)
Lemma canTrade_new_day c rm :
  tradingPaused rm = false ->
  circuitBreakerOpen rm = false ->
  (dailyLoss rm >=? maxDailyLoss (risk cfg))%num = false ->
  toDateString c <> lastResetDate rm ->
  (canTrade cfg c rm).1 = true
  /\ dailyLoss (canTrade cfg c rm).2 = of_Z 0
  /\ lastResetDate (canTrade cfg c rm).2 = toDateString c.
Proof.
  intros Hp Ho Hcap Hd. unfold canTrade. rewrite Hp, Ho, Hcap.
  destruct (String.eqb_spec (toDateString c) (lastResetDate rm)); done.
Qed.

(** On the day already recorded [canTrade] resets nothing. *)
Lemma canTrade_same_day c rm :
  tradingPaused rm = false ->
  circuitBreakerOpen rm = false ->
  toDateString c = lastResetDate rm ->
  (canTrade cfg c rm).2 = rm.
Proof.
  intros Hp Ho Hd. unfold canTrade. rewrite Hp, Ho.
  destruct (_ >=? _)%num; [done|].
  destruct (String.eqb_spec (toDateString c) (lastResetDate rm)); done.
Qed.

End DailyLoss.

(** C3 (the code at the failing input). A loss of 1000 USD, the configured
    cap, is recorded on Monday.  [canTrade] answers [false] on Monday, and
    still answers [false] on Tuesday and a week later, the loss standing at
    1000 and the reset date at Monday: the day boundary never lifts the
    cap. *)
Lemma daily_cap_survives_day_boundary :
  let monday := {| now := 0; toDateString := "Mon Jan 01 2024" |} in
  let tuesday := {| now := 86400000; toDateString := "Tue Jan 02 2024" |} in
  let next_monday := {| now := 604800000; toDateString := "Mon Jan 08 2024" |} in
  let capped := recordLoss (of_Z (-1000)) (RiskManager_new monday) in
  canTrade config monday capped = (false, capped)
  /\ canTrade config tuesday capped = (false, capped)
  /\ canTrade config next_monday capped = (false, capped)
  /\ dailyLoss capped = Fin (0 + 1000)
  /\ lastResetDate capped = "Mon Jan 01 2024"%string.
Proof. repeat split. Qed.

(** ** Profitability estimator *)



(** ** Detector *)

Section NumFacts.

Lemma Qltb_true (a b : Q) : Qltb a b = true <-> (a < b)%Q.
Proof.
  unfold Qltb. rewrite negb_true_iff. split.
  - intros H. apply Qnot_le_lt. intros Hle.
    apply Qle_bool_iff in Hle. congruence.
  - intros H. destruct (Qle_bool b a) eqn:E; [|done].
    apply Qle_bool_iff in E. by apply Qlt_not_le in H.
Qed.

Lemma Qltb_false (a b : Q) : Qltb a b = false <-> (b <= a)%Q.
Proof.
  unfold Qltb. rewrite negb_false_iff. apply Qle_bool_iff.
Qed.

Lemma Qis0_false (a : Q) : ~ (a == 0)%Q -> Qis0 a = false.
Proof.
  intros H. unfold Qis0. destruct (Qeq_bool a 0) eqn:E; [|done].
  by apply Qeq_bool_iff in E.
Qed.

Lemma Qis0_pos (a : Q) : (0 < a)%Q -> Qis0 a = false.
Proof. intros H. apply Qis0_false. intros E. rewrite E in H. by apply Qlt_irrefl in H. Qed.

(** The percentage computed by [createOpportunity] on finite prices with a
    non-zero buy price. *)
Lemma percent_finite (b s : Q) :
  ~ (b == 0)%Q ->
  ((Fin s - Fin b) / Fin b * of_Z 100)%num
  = Fin ((s + - b) / b * inject_Z 100).
Proof. intros H. cbn. by rewrite Qis0_false. Qed.

End NumFacts.

Section DetectorFacts.

Variable cfg : Config.

(** What a created opportunity is made of. *)
Lemma createOpportunity_Some t pair d1 d2 buy sell o :
  createOpportunity cfg t pair d1 d2 buy sell = Some o ->
  ((sell - buy) / buy * of_Z 100 <? dec 1 2)%num = false
  /\ tokenPair o = pair /\ buyDEX o = d1 /\ sellDEX o = d2
  /\ buyPrice o = buy /\ sellPrice o = sell
  /\ amount o = calculateOptimalAmount cfg pair buy sell
  /\ priceDifferencePercent o = ((sell - buy) / buy * of_Z 100)%num.
Proof.
  unfold createOpportunity. destruct (_ <? _)%num eqn:E; [done|].
  intros [= <-]. by cbn.
Qed.

Lemma createOpportunity_None t pair d1 d2 buy sell :
  createOpportunity cfg t pair d1 d2 buy sell = None
  <-> ((sell - buy) / buy * of_Z 100 <? dec 1 2)%num = true.
Proof.
  unfold createOpportunity. by destruct (_ <? _)%num.
Qed.

(** On finite prices with a buy price other than zero, whatever its sign:
    an opportunity is created exactly when the relative spread is at least
    0.5%. *)
Lemma createOpportunity_threshold t pair d1 d2 (b s : Q) :
  ~ (b == 0)%Q ->
  is_Some (createOpportunity cfg t pair d1 d2 (Fin b) (Fin s))
  <-> (5 # 1000 <= (s - b) / b)%Q.
Proof.
  intros Hnz.
  rewrite <- not_eq_None_Some, createOpportunity_None, percent_finite by done.
  cbn [ltb dec]. rewrite not_true_iff_false, Qltb_false.
  unfold Qminus. set (x := ((s + - b) / b)%Q).
  change (inject_Z 100) with (100 # 1)%Q.
  split; intros H; lra.
Qed.

(** Every opportunity of [compare_venues] is created from the two quotes,
    in one direction or the other. *)
Lemma in_compare_venues t pair d1 d2 o :
  In o (compare_venues cfg t pair d1 d2) ->
  exists q1 q2,
    d1.2 !! pair = Some q1 /\ d2.2 !! pair = Some q2
    /\ (createOpportunity cfg t pair d1.1 d2.1 (price q1) (price q2) = Some o
        \/ createOpportunity cfg t pair d2.1 d1.1 (price q2) (price q1) = Some o).
Proof.
  unfold compare_venues.
  destruct (d1.2 !! pair) as [q1|]; [|done].
  destruct (d2.2 !! pair) as [q2|]; [|done].
  intros H. exists q1, q2. split; [done|]. split; [done|].
  apply in_app_or in H. destruct H as [H|H]; [left|right];
    destruct (createOpportunity _ _ _ _ _ _ _) as [o'|]; cbn in H;
    try done; destruct H as [->|[]]; done.
Qed.

Lemma in_venue_pairs t pair ds o :
  In o (venue_pairs cfg t pair ds) ->
  exists d1 d2, In d1 ds /\ In d2 ds /\ In o (compare_venues cfg t pair d1 d2).
Proof.
  induction ds as [|d rest IH]; cbn [venue_pairs]; [done|].
  intros H. apply in_app_or in H. destruct H as [H|H].
  - apply in_flat_map in H. destruct H as (d2 & Hd2 & Ho).
    exists d, d2. repeat split; [by left|by right|done].
  - destruct (IH H) as (d1 & d2 & H1 & H2 & Ho).
    exists d1, d2. repeat split; [by right|by right|done].
Qed.

(** Every opportunity found by the detector comes out of
    [createOpportunity], applied to the prices of two quotes of the
    snapshot for one monitored pair. *)
Lemma in_findArbitrageOpportunities t pairs allPrices o :
  In o (findArbitrageOpportunities cfg t pairs allPrices) ->
  exists pair dbuy dsell qbuy qsell,
    In pair pairs /\ In dbuy allPrices /\ In dsell allPrices
    /\ dbuy.2 !! pair = Some qbuy /\ dsell.2 !! pair = Some qsell
    /\ createOpportunity cfg t pair dbuy.1 dsell.1 (price qbuy) (price qsell)
       = Some o.
Proof.
  unfold findArbitrageOpportunities. intros H.
  apply in_flat_map in H. destruct H as (pair & Hp & H).
  apply in_venue_pairs in H. destruct H as (d1 & d2 & H1 & H2 & H).
  apply in_compare_venues in H. destruct H as (q1 & q2 & L1 & L2 & [H|H]).
  - by exists pair, d1, d2, q1, q2.
  - by exists pair, d2, d1, q2, q1.
Qed.

End DetectorFacts.

(** C4, as stated, fails on the boundary: with 200 on one venue and 201 on
    the other the relative spread is exactly 0.5%, which does not exceed
    0.5%, and the detector emits a candidate. *)
Lemma spread_of_exactly_half_percent_is_emitted :
  (exists o,
     findArbitrageOpportunities config 0 ["WETH/USDC"%string]
       (two_venues (of_Z 200) (of_Z 201)) = [o]
     /\ buyPrice o = of_Z 200 /\ sellPrice o = of_Z 201)
  /\ ((of_Z 201 - of_Z 200) / of_Z 200 >? dec 5 1000)%num = false.
Proof. split; [eexists; split; [reflexivity|]|]; done. Qed.

(** C4, amended. For every token pair and ordered venue pair with a
    positive buy price, a candidate is emitted exactly when the relative
    spread [(sellPrice - buyPrice) / buyPrice] is at least 0.5% (a spread
    below it emits nothing, a spread of exactly 0.5% does emit); so does
    every candidate the detector returns; equal prices never emit, and
    neither direction of 2000 against 2000.5 does. *)
Theorem detector_spread_threshold (cfg : Config) (t : Z)
    (pair dbuy dsell : string) (b s : Q) :
  (0 < b)%Q ->
  (is_Some (createOpportunity cfg t pair dbuy dsell (Fin b) (Fin s))
   <-> (5 # 1000 <= (s - b) / b)%Q)
  /\ (forall pairs allPrices o,
        In o (findArbitrageOpportunities cfg t pairs allPrices) ->
        buyPrice o = Fin b -> sellPrice o = Fin s ->
        (5 # 1000 <= (s - b) / b)%Q)
  /\ createOpportunity cfg t pair dbuy dsell (Fin b) (Fin b) = None
  /\ createOpportunity cfg t pair dbuy dsell (of_Z 2000) (dec 20005 10) = None
  /\ createOpportunity cfg t pair dsell dbuy (dec 20005 10) (of_Z 2000) = None.
Proof.
  intros Hb.
  assert (Hnz : ~ (b == 0)%Q).
  { intros E. rewrite E in Hb. by apply Qlt_irrefl in Hb. }
  split; [by apply createOpportunity_threshold|].
  split; [|split; [|done]].
  - intros pairs allPrices o Hin Hbuy Hsell.
    apply in_findArbitrageOpportunities in Hin.
    destruct Hin as (pr & d1 & d2 & q1 & q2 & _ & _ & _ & _ & _ & Hc).
    pose proof (createOpportunity_Some _ _ _ _ _ _ _ _ Hc)
      as (_ & _ & _ & _ & Hb' & Hs' & _).
    rewrite <- Hb', Hbuy, <- Hs', Hsell in Hc.
    apply (createOpportunity_threshold cfg t pr d1.1 d2.1 b s Hnz).
    by eexists.
  - apply eq_None_not_Some. rewrite createOpportunity_threshold by done.
    intros H. apply Qle_not_lt in H. apply H.
    assert (E : ((b - b) / b == 0)%Q) by (by field).
    rewrite E. done.
Qed.

(** C4 amended, on 200 against 201. *)
Lemma detector_spread_threshold_witness :
  (0 < 200)%Q
  /\ is_Some (createOpportunity config 0 "WETH/USDC" "uniswap" "sushiswap"
               (Fin 200) (Fin 201))
  /\ createOpportunity config 0 "WETH/USDC" "uniswap" "sushiswap"
       (Fin 200) (Fin 200) = None.
Proof.
  assert (H : (0 < 200)%Q) by done.
  split; [exact H|].
  destruct (detector_spread_threshold config 0 "WETH/USDC" "uniswap"
              "sushiswap" 200 201 H) as (Hiff & _ & Hsame & _).
  split; [|exact Hsame].
  apply Hiff. done.
Defined.

(** C7, as stated, fails: a quote whose price is zero is not rejected.
    With 0 on uniswap and 2000 on sushiswap the detector returns a
    candidate that buys at 0 on uniswap, its percentage and its amount
    both infinite; and with -100 against -200 it returns a candidate that
    buys at -100. *)
Lemma zero_and_negative_prices_are_emitted :
  (exists o,
     findArbitrageOpportunities config 0 ["WETH/USDC"%string]
       (two_venues (of_Z 0) (of_Z 2000)) = [o]
     /\ buyDEX o = "uniswap"%string /\ buyPrice o = of_Z 0
     /\ sellPrice o = of_Z 2000
     /\ priceDifferencePercent o = PInf /\ amount o = PInf)
  /\ (exists o,
        findArbitrageOpportunities config 0 ["WETH/USDC"%string]
          (two_venues (of_Z (-100)) (of_Z (-200))) = [o]
        /\ buyDEX o = "uniswap"%string /\ buyPrice o = of_Z (-100)).
Proof. split; eexists; (split; [reflexivity|]); done. Qed.

(** C7, amended. The detector skips a venue/pair combination only when
    one of its two quotes is missing, and then returns nothing for it;
    when both quotes are there it hands their prices to
    [createOpportunity] in both directions whatever their sign: a zero buy
    price with a positive sell price yields a candidate, any other buy
    price, negative ones included, yields one exactly when
    [(sellPrice - buyPrice) / buyPrice] is at least 0.5%.  The search
    itself always returns a list. *)
Theorem detector_skips_only_missing_quotes (cfg : Config) (t : Z)
    (pair : string) (d1 d2 : string * gmap string Quote) :
  (d1.2 !! pair = None \/ d2.2 !! pair = None ->
   compare_venues cfg t pair d1 d2 = [])
  /\ (forall q1 q2,
        d1.2 !! pair = Some q1 -> d2.2 !! pair = Some q2 ->
        compare_venues cfg t pair d1 d2
        = option_list
            (createOpportunity cfg t pair d1.1 d2.1 (price q1) (price q2))
          ++ option_list
               (createOpportunity cfg t pair d2.1 d1.1 (price q2) (price q1)))
  /\ (forall s : Q, (0 < s)%Q ->
        is_Some (createOpportunity cfg t pair d1.1 d2.1 (Fin 0) (Fin s)))
  /\ (forall b s : Q, ~ (b == 0)%Q ->
        is_Some (createOpportunity cfg t pair d1.1 d2.1 (Fin b) (Fin s))
        <-> (5 # 1000 <= (s - b) / b)%Q).
Proof.
  split; [|split; [|split]].
  - unfold compare_venues. intros [->| ->]; [done|].
    by destruct (d1.2 !! pair).
  - intros q1 q2 H1 H2. unfold compare_venues. by rewrite H1, H2.
  - intros s Hs. apply not_eq_None_Some. rewrite createOpportunity_None.
    cbn. unfold inf_of_sign.
    assert (E : Qis0 (s + - 0) = false).
    { apply Qis0_pos. lra. }
    assert (L : Qltb 0 (s + - 0) = true).
    { apply Qltb_true. lra. }
    rewrite E, L. cbn. done.
  - intros b s Hb. by apply createOpportunity_threshold.
Qed.

(** ** Sizing *)

Lemma leb_Fin (a b : Q) : (Fin a <=? Fin b)%num = true <-> (a <= b)%Q.
Proof. cbn. apply Qle_bool_iff. Qed.

Section RoundingFacts.

Variable rnd : Q -> Q.

Hypothesis rnd_error :
  forall x : Q, (Qabs (rnd x - x) <= unit_roundoff * Qabs x)%Q.

(** Rounding a value that is not negative moves it by a factor between
    [1 - u] and [1 + u]. *)
Lemma rnd_of_nonneg (x : Q) :
  (0 <= x)%Q ->
  ((1 - unit_roundoff) * x <= rnd x)%Q /\ (rnd x <= (1 + unit_roundoff) * x)%Q.
Proof.
  intros Hx. pose proof (rnd_error x) as H.
  rewrite (Qabs_pos x Hx) in H.
  apply Qabs_Qle_condition in H as [H1 H2].
  unfold unit_roundoff in *. split; lra.
Qed.

(** The notional of a sized trade: a rounded quotient multiplied back and
    rounded again. *)
Lemma two_roundings (m b : Q) :
  (0 <= m)%Q -> (0 < b)%Q ->
  ((1 - unit_roundoff) * (1 - unit_roundoff) * m <= rnd (b * rnd (m / b)))%Q
  /\ (rnd (b * rnd (m / b)) <= (1 + unit_roundoff) * (1 + unit_roundoff) * m)%Q.
Proof.
  intros Hm Hb.
  assert (Hq : (0 <= m / b)%Q) by (apply Qle_shift_div_l; [done|lra]).
  destruct (rnd_of_nonneg _ Hq) as [L1 U1].
  assert (E : (b * (m / b) == m)%Q).
  { field. intros E. rewrite E in Hb. by apply Qlt_irrefl in Hb. }
  assert (Lb : (b * ((1 - unit_roundoff) * (m / b)) <= b * rnd (m / b))%Q)
    by (by apply Qmult_le_l).
  assert (Ub : (b * rnd (m / b) <= b * ((1 + unit_roundoff) * (m / b)))%Q)
    by (by apply Qmult_le_l).
  assert (E1 : (b * ((1 - unit_roundoff) * (m / b)) == (1 - unit_roundoff) * m)%Q).
  { rewrite <- E at 2. ring. }
  assert (E2 : (b * ((1 + unit_roundoff) * (m / b)) == (1 + unit_roundoff) * m)%Q).
  { rewrite <- E at 2. ring. }
  rewrite E1 in Lb. rewrite E2 in Ub.
  assert (Hp : (0 <= b * rnd (m / b))%Q) by (unfold unit_roundoff in *; lra).
  destruct (rnd_of_nonneg _ Hp) as [L2 U2].
  unfold unit_roundoff in *. split; lra.
Qed.

End RoundingFacts.

(** C10, as stated, fails on the doubles the code computes with.  Under
    the configured ceiling of 10000, the opportunity created for 1999
    against 2100 has [amount * buyPrice = 1000.0000000000001], not 1000;
    with a ceiling of 1000 the same opportunity has a notional above the
    ceiling and [checkTransactionValue] fails; and under the configured
    ceiling a buy price of [+Infinity], which is greater than 0, gives an
    opportunity whose amount is 0 and whose notional is [NaN], and the
    check fails. *)
Lemma sizing_is_inexact_in_binary64 :
  (exists o,
     Binary64.createOpportunity 10000 0 "WETH/USDC" "uniswap" "sushiswap"
       1999 2100 = Some o
     /\ PrimFloat.ltb 0 (Binary64.buyPrice o) = true
     /\ PrimFloat.mul (Binary64.amount o) (Binary64.buyPrice o)
        = 0x1.f400000000001p+9%float
     /\ PrimFloat.eqb (PrimFloat.mul (Binary64.amount o) (Binary64.buyPrice o))
          (Binary64.Math_min 10000 1000) = false)
  /\ (exists o,
        Binary64.createOpportunity 1000 0 "WETH/USDC" "uniswap" "sushiswap"
          1999 2100 = Some o
        /\ PrimFloat.ltb 0 (Binary64.buyPrice o) = true
        /\ passed (Binary64.checkTransactionValue 1000 o) = false)
  /\ (exists o,
        Binary64.createOpportunity 10000 0 "WETH/USDC" "uniswap" "sushiswap"
          PrimFloat.infinity 2000 = Some o
        /\ PrimFloat.ltb 0 (Binary64.buyPrice o) = true
        /\ Binary64.amount o = 0%float
        /\ passed (Binary64.checkTransactionValue 10000 o) = false).
Proof.
  split; [|split].
  - eexists. split; [by vm_compute|]. split; [by vm_compute|].
    split; by vm_compute.
  - eexists. split; [by vm_compute|]. split; by vm_compute.
  - eexists. split; [by vm_compute|]. split; [by vm_compute|].
    split; by vm_compute.
Qed.

(** C10, amended. For every opportunity the detector creates at a finite
    positive buy price, the amount is the rounded quotient of
    [min(maxTransactionValue, 1000)] by the buy price, and the notional
    [buyPrice * amount] equals [min(maxTransactionValue, 1000)] up to the
    two roundings made, that is within a relative error of [2u + u^2] for
    the unit roundoff [u] (overflow and underflow apart); so the notional
    exceeds [maxTransactionValue] by no more than that factor, and
    [checkTransactionValue] passes, whatever profit analysis the
    opportunity is enhanced with, as soon as [maxTransactionValue] is at
    least [1000 * (1 + u)^2]. *)
Theorem detector_notional_within_rounding (rnd : Q -> Q) (cfg : Config)
    (t : Z) (pair dbuy dsell : string) (sell : num) (o : Opportunity)
    (M b : Q) :
  (forall x : Q, (Qabs (rnd x - x) <= unit_roundoff * Qabs x)%Q) ->
  maxTransactionValue (trading cfg) = Fin M ->
  (0 <= M)%Q ->
  (0 < b)%Q ->
  Rounded.createOpportunity rnd cfg t pair dbuy dsell (Fin b) sell = Some o ->
  exists m n : Q,
    min (Fin M) (of_Z 1000) = Fin m
    /\ buyPrice o = Fin b
    /\ amount o = Fin (rnd (m / b)%Q)
    /\ (forall a, Rounded.transactionValue rnd {| opp := o; analysis := a |}
                  = Fin n)
    /\ (Qabs (n - m)
        <= (2 * unit_roundoff + unit_roundoff * unit_roundoff) * m)%Q
    /\ (n <= (1 + unit_roundoff) * (1 + unit_roundoff) * M)%Q
    /\ (((1 + unit_roundoff) * (1 + unit_roundoff) * 1000 <= M)%Q ->
        forall a,
          passed (Rounded.checkTransactionValue rnd cfg
                    {| opp := o; analysis := a |}) = true).
Proof.
  intros Hr HM HM0 Hb Hc.
  assert (Hnz : ~ (b == 0)%Q).
  { intros E. rewrite E in Hb. by apply Qlt_irrefl in Hb. }
  unfold Rounded.createOpportunity in Hc.
  destruct (_ <? _)%num; [done|]. injection Hc as <-.
  unfold Rounded.checkTransactionValue, Rounded.transactionValue,
    Rounded.calculateOptimalAmount.
  cbn [buyPrice amount opp passed]. rewrite HM. unfold of_Z. cbn [min].
  assert (Hmin : exists m : Q,
            (if (Fin M <=? Fin (inject_Z 1000))%num then Fin M
             else Fin (inject_Z 1000)) = Fin m
            /\ (0 <= m)%Q /\ (m <= M)%Q /\ (m <= 1000)%Q).
  { destruct (Fin M <=? Fin (inject_Z 1000))%num eqn:E; cbn in E.
    - apply Qle_bool_iff in E. change (inject_Z 1000) with 1000%Q in E.
      exists M. repeat split; [done|lra|done].
    - exists (inject_Z 1000). change (inject_Z 1000) with 1000%Q.
      assert (1000 < M)%Q.
      { apply Qnot_le_lt. intros H. apply Qle_bool_iff in H.
        change (inject_Z 1000) with 1000%Q in E. congruence. }
      repeat split; lra. }
  destruct Hmin as (m & -> & Hm0 & HmM & Hm1000).
  cbn [div]. rewrite (Qis0_false b Hnz). cbn [Rounded.rounded mul leb].
  destruct (two_roundings rnd Hr m b Hm0 Hb) as [Lo Up].
  exists m, (rnd (b * rnd (m / b)))%Q.
  split; [done|]. split; [done|]. split; [done|]. split; [done|].
  split; [|split].
  - apply Qabs_Qle_condition. unfold unit_roundoff in *. split; lra.
  - unfold unit_roundoff in *. lra.
  - intros Hroom a. apply Qle_bool_iff. unfold unit_roundoff in *. lra.
Qed.

(** C10 amended, on 1999 against 2100 under the configured ceiling, with a
    rounding that always errs upwards by the full unit roundoff. *)
Lemma detector_notional_within_rounding_witness :
  let rnd := fun x : Q => (x * (1 + unit_roundoff))%Q in
  (forall x : Q, (Qabs (rnd x - x) <= unit_roundoff * Qabs x)%Q)
  /\ exists o,
       Rounded.createOpportunity rnd config 0 "WETH/USDC" "uniswap"
         "sushiswap" (Fin 1999) (Fin 2100) = Some o
       /\ forall a,
            passed (Rounded.checkTransactionValue rnd config
                      {| opp := o; analysis := a |}) = true.
Proof.
  intros rnd.
  assert (Hr : forall x : Q, (Qabs (rnd x - x) <= unit_roundoff * Qabs x)%Q).
  { intros x. unfold rnd.
    assert (E : (x * (1 + unit_roundoff) - x == x * unit_roundoff)%Q) by ring.
    rewrite E, Qabs_Qmult, (Qabs_pos unit_roundoff) by done.
    rewrite Qmult_comm. apply Qle_refl. }
  split; [exact Hr|].
  destruct (Rounded.createOpportunity rnd config 0 "WETH/USDC" "uniswap"
              "sushiswap" (Fin 1999) (Fin 2100)) as [o|] eqn:Ho;
    [|by vm_compute in Ho].
  exists o. split; [reflexivity|].
  destruct (detector_notional_within_rounding rnd config 0 "WETH/USDC"
              "uniswap" "sushiswap" (Fin 2100) o 10000 1999 Hr)
    as (m & n & _ & _ & _ & _ & _ & _ & Hpass).
  - reflexivity.
  - done.
  - done.
  - exact Ho.
  - apply Hpass. unfold unit_roundoff. lra.
Defined.

(** ** Validation *)

(** C5, as stated, fails on its token-safety part: with SCAM on the
    blacklist, the opportunity on SCAM/USDC has a blacklisted leg, and yet
    its token-safety check passes and [validateOpportunity] accepts it. *)
Lemma blacklisted_token_is_accepted :
  let o := mock_opportunity "SCAM/USDC" in
  spec_leg_blacklisted ["SCAM"%string] o
  /\ passed (checkTokenSafety o) = true
  /\ validateOpportunity config o = true.
Proof.
  intros o. split; [|done].
  exists "SCAM"%string. split; by left.
Qed.

(** C5, amended. [validateOpportunity] returns true exactly when the four
    numeric checks pass: net profit at least [minProfitUSD], estimated
    slippage percentage at most [maxSlippagePercent], notional at most a
    tenth of [minLiquidityUSD], notional at most [maxTransactionValue].
    The token-safety check is the fifth of the list and passes on every
    opportunity, whatever its tokens.  Any check that fails rejects the
    opportunity, and the opportunity is rejected exactly when the list of
    failed reasons is not empty. *)
Theorem validateOpportunity_four_checks (cfg : Config)
    (o : EnhancedOpportunity) :
  (validateOpportunity cfg o = true
   <-> (netProfit (analysis o) >=? minProfitUSD (trading cfg))%num = true
       /\ (slippageImpact (analysis o)
           / (buyPrice (opp o) * amount (opp o)) * of_Z 100
           <=? maxSlippagePercent (trading cfg))%num = true
       /\ (buyPrice (opp o) * amount (opp o)
           <=? minLiquidityUSD (risk cfg) * dec 1 10)%num = true
       /\ (buyPrice (opp o) * amount (opp o)
           <=? maxTransactionValue (trading cfg))%num = true)
  /\ (forall o' : EnhancedOpportunity, passed (checkTokenSafety o') = true)
  /\ (forall v, In v (validations cfg o) -> passed v = false ->
        validateOpportunity cfg o = false)
  /\ (validateOpportunity cfg o = false <-> failedChecks cfg o <> []).
Proof.
  split; [|split; [done|split]].
  - unfold validateOpportunity, validations. cbn [forallb passed
      checkProfitThreshold checkSlippageTolerance checkLiquidityRequirements
      checkTransactionValue checkTokenSafety transactionValue].
    rewrite !andb_true_iff. tauto.
  - intros v Hin Hv. unfold validateOpportunity.
    apply not_true_is_false. intros Hall.
    rewrite forallb_forall in Hall. specialize (Hall v Hin). congruence.
  - unfold validateOpportunity, failedChecks.
    induction (validations cfg o) as [|v vs IH]; cbn [forallb].
    + split; [done|]. intros H. by destruct H.
    + rewrite filter_cons. destruct (passed v) eqn:Ev; cbn [andb].
      * rewrite decide_False by done. exact IH.
      * rewrite decide_True by done. cbn. split; done.
Qed.

(** ** Dispatcher: notification of the risk gate *)

Section DispatcherFacts.

Variable cfg : Config.

(** A confirmed settlement leaves the risk state as it was. *)
Lemma executeArbitrage_confirmed_risk h p x tfail o eng :
  riskManager (executeArbitrage cfg (Confirmed h p x) tfail o eng)
  = riskManager eng.
Proof. reflexivity. Qed.

(** A rejected or unconfirmed settlement records one failure, and leaves
    the metrics as they were. *)
Lemma executeArbitrage_failed s tfail o eng :
  (forall h p x, s <> Confirmed h p x) ->
  riskManager (executeArbitrage cfg s tfail o eng)
  = recordFailure cfg tfail (riskManager eng)
  /\ metrics (executeArbitrage cfg s tfail o eng) = metrics eng.
Proof.
  intros Hs. destruct s as [e|h e|h p x]; try done.
  by destruct (Hs h p x).
Qed.

End DispatcherFacts.

(** C6 (the code at the failing input). Three settlements fail, the fourth
    is confirmed, two more fail.  The confirmed one is recorded as a
    success and counted in the metrics, but the risk state is the one left
    by the third failure, its counter at 3 where [recordSuccess] would have
    put 0; the two failures that follow then open the breaker, on five
    failures that were not consecutive. *)
Lemma confirmed_settlement_does_not_reach_risk_gate :
  let o := mock_opportunity "WETH/USDC" in
  let start := ArbitrageEngine_new {| now := 0; toDateString := "Mon Jan 01 2024" |} in
  let fail t := executeArbitrage config (ConfirmFailed "0x123" "Transaction failed") t o in
  let eng3 := fail 3 (fail 2 (fail 1 start)) in
  let eng4 := executeArbitrage config (Confirmed "0x123" (of_Z 0) 1200) 4 o eng3 in
  let eng6 := fail 6 (fail 5 eng4) in
  consecutiveFailures (riskManager eng3) = 3
  /\ riskManager eng4 = riskManager eng3
  /\ consecutiveFailures (recordSuccess (riskManager eng3)) = 0
  /\ successfulTrades (metrics eng4) = 1
  /\ In (TradeRecorded "test_opportunity_1" "success") (effects eng4)
  /\ circuitBreakerOpen (riskManager eng4) = false
  /\ circuitBreakerOpen (riskManager eng6) = true.
Proof.
  cbv zeta. split; [by vm_compute|]. split; [by vm_compute|].
  split; [reflexivity|]. split; [by vm_compute|].
  split; [right; left; reflexivity|]. split; by vm_compute.
Qed.

(** ** Dispatcher: deduplication *)

Section DedupFacts.

Variable cfg : Config.

(** A submission whose id is in the map returns at once, and its
    [finally] block removes the entry it found: nothing else changes. *)
Lemma processOpportunity_duplicate e o eng :
  is_Some (opportunities eng !! id o) ->
  processOpportunity cfg e o eng
  = with_opportunities (delete (id o) (opportunities eng)) eng.
Proof.
  intros [o' H]. unfold processOpportunity, processOpportunity_enter.
  by rewrite H.
Qed.

Lemma processOpportunity_duplicate_frame e o eng :
  is_Some (opportunities eng !! id o) ->
  let eng' := processOpportunity cfg e o eng in
  metrics eng' = metrics eng
  /\ riskManager eng' = riskManager eng
  /\ effects eng' = effects eng
  /\ opportunities eng' !! id o = None.
Proof.
  intros H eng'. unfold eng'. rewrite processOpportunity_duplicate by done.
  cbn. repeat split. apply lookup_delete_eq.
Qed.

End DedupFacts.

(** C8 (the code at the failing input). The detector's candidate is
    submitted and suspended in flight; a second submission of the same id
    changes neither metrics, risk state nor effects, but it removes the
    first submission's entry from the in-flight map; a third submission of
    the same id is therefore accepted, and once both have run the contract
    has been called twice for that id. *)
Lemma duplicate_submission_evicts_in_flight_entry :
  let o := weth_usdc_opportunity in
  let start := ArbitrageEngine_new {| now := 0; toDateString := "Mon Jan 01 2024" |} in
  findArbitrageOpportunities config 0 ["WETH/USDC"%string]
    (two_venues (of_Z 2000) (of_Z 2100)) = [o]
  /\ exists first_in_flight,
       processOpportunity_enter o start = inr first_in_flight
       /\ opportunities first_in_flight !! id o = Some o
       /\ let after_duplicate :=
            processOpportunity config settled_env o first_in_flight in
          opportunities after_duplicate !! id o = None
          /\ opportunities after_duplicate <> opportunities first_in_flight
          /\ metrics after_duplicate = metrics first_in_flight
          /\ riskManager after_duplicate = riskManager first_in_flight
          /\ effects after_duplicate = effects first_in_flight
          /\ exists third_in_flight,
               processOpportunity_enter o after_duplicate = inr third_in_flight
               /\ settlement_attempts (id o)
                    (processOpportunity_resume config settled_env o
                       (processOpportunity_resume config settled_env o
                          third_in_flight)) = 2%nat.
Proof.
  cbv zeta. split; [reflexivity|].
  eexists. split; [reflexivity|]. split; [by vm_compute|].
  split; [by vm_compute|]. split.
  { intros H.
    apply (f_equal (fun m => m !! id weth_usdc_opportunity)) in H.
    vm_compute in H. discriminate. }
  split; [reflexivity|]. split; [reflexivity|]. split; [reflexivity|].
  eexists. split; [by vm_compute|]. by vm_compute.
Qed.

(** ** Metrics *)

Section MetricsFacts.

Variable cfg : Config.

Lemma executeArbitrage_agree s tfail o eng :
  counters_agree (metrics eng) ->
  counters_agree (metrics (executeArbitrage cfg s tfail o eng)).
Proof.
  unfold counters_agree. destruct s; cbn; lia.
Qed.

Lemma enter_agree o eng :
  counters_agree (metrics eng) ->
  counters_agree
    (metrics match processOpportunity_enter o eng with inl g | inr g => g end).
Proof.
  unfold processOpportunity_enter.
  by destruct (opportunities eng !! id o).
Qed.

Lemma resume_agree e o eng :
  counters_agree (metrics eng) ->
  counters_agree (metrics (processOpportunity_resume cfg e o eng)).
Proof.
  intros H. unfold processOpportunity_resume.
  destruct (calculateNetProfit cfg (env_feeds e) (profitCalculator eng) o)
    as [[a|msg] pc]; cbn [metrics with_opportunities]; [|done].
  destruct (negb (validateOpportunity cfg _)); [done|].
  destruct (profitable a); [|done].
  by apply executeArbitrage_agree.
Qed.

Lemma process_agree e o eng :
  counters_agree (metrics eng) ->
  counters_agree (metrics (processOpportunity cfg e o eng)).
Proof.
  intros H. unfold processOpportunity.
  pose proof (enter_agree o eng H) as He.
  destruct (processOpportunity_enter o eng) as [g|g]; [done|].
  by apply resume_agree.
Qed.

Lemma process_all_agree (env : Opportunity -> ProcessEnv) found : forall eng,
  counters_agree (metrics eng) ->
  counters_agree
    (metrics (fold_left (fun g o => processOpportunity cfg (env o) o g) found eng)).
Proof.
  induction found as [|o found IH]; intros eng H; cbn [fold_left]; [done|].
  apply IH. by apply process_agree.
Qed.

Lemma monitoringLoop_agree c allPrices env eng :
  counters_agree (metrics eng) ->
  counters_agree (metrics (monitoringLoop cfg c allPrices env eng)).
Proof.
  intros H. unfold monitoringLoop.
  destruct (canTrade cfg c (riskManager eng)) as [ok rm].
  destruct (negb ok); [done|].
  cbn [metrics cleanupExpiredOpportunities with_opportunities].
  by apply process_all_agree.
Qed.

Lemma engine_call_agree eng k :
  counters_agree (metrics eng) ->
  counters_agree (metrics (engine_call cfg eng k)).
Proof.
  intros H. destruct k; cbn [engine_call]; try done.
  - unfold initialize, loadTokenPairs.
    destruct contract_ok; [|done]. by destruct rows as [[|p ps]|].
  - by apply enter_agree.
  - by apply resume_agree.
  - by apply executeArbitrage_agree.
  - by apply monitoringLoop_agree.
Qed.

Lemma reachable_agree eng :
  reachable cfg eng -> counters_agree (metrics eng).
Proof.
  induction 1 as [c|eng k _ IH].
  - by cbn.
  - by apply engine_call_agree.
Qed.

(** The success rate of agreeing counters. *)
Lemma success_rate_of_agreeing eng :
  counters_agree (metrics eng) ->
  (tradesExecuted (metrics eng) = 0
   /\ averageSuccessRate (getMetrics eng) = of_Z 0)
  \/ (0 < tradesExecuted (metrics eng)
      /\ (averageSuccessRate (getMetrics eng) == of_Z 100)%num).
Proof.
  intros [Heq Hnn]. unfold getMetrics. cbn [averageSuccessRate].
  destruct (Z.gtb_spec (tradesExecuted (metrics eng)) 0) as [Hpos|Hz].
  - right. split; [lia|]. rewrite <- Heq.
    set (n := tradesExecuted (metrics eng)) in *.
    assert (Hn : ~ (inject_Z n == 0)%Q).
    { unfold Qeq. cbn. lia. }
    cbn. rewrite (Qis0_false _ Hn). cbn. by field.
  - left. split; [lia|done].
Qed.

End MetricsFacts.

(** C9. In every state an engine reaches from its construction, by any
    run of initialisations, starts and stops, submissions, resumptions,
    executions, clean-ups, monitoring cycles and risk calls,
    [tradesExecuted] equals [successfulTrades]: a
    failed execution leaves the metrics as they are, a confirmed one adds
    one to both.  Hence [getMetrics().averageSuccessRate] is 0 when no
    trade has been executed and 100 otherwise. *)
Theorem trade_counters_agree (cfg : Config) (eng : ArbitrageEngine) :
  reachable cfg eng ->
  tradesExecuted (metrics eng) = successfulTrades (metrics eng)
  /\ ((tradesExecuted (metrics eng) = 0
       /\ averageSuccessRate (getMetrics eng) = of_Z 0)
      \/ (0 < tradesExecuted (metrics eng)
          /\ (averageSuccessRate (getMetrics eng) == of_Z 100)%num))
  /\ (forall s tfail o,
        (forall h p x, s <> Confirmed h p x) ->
        metrics (executeArbitrage cfg s tfail o eng) = metrics eng)
  /\ (forall h p x tfail o,
        let m' := metrics (executeArbitrage cfg (Confirmed h p x) tfail o eng) in
        tradesExecuted m' = tradesExecuted (metrics eng) + 1
        /\ successfulTrades m' = successfulTrades (metrics eng) + 1).
Proof.
  intros Hr. pose proof (reachable_agree cfg eng Hr) as Ha.
  split; [apply Ha|]. split; [by apply success_rate_of_agreeing|].
  split.
  - intros s tfail o Hs. by apply executeArbitrage_failed.
  - intros h p x tfail o. by cbn.
Qed.

(** C9 after one confirmed and one failed execution. *)
Lemma trade_counters_agree_witness :
  let o := mock_opportunity "WETH/USDC" in
  let start := ArbitrageEngine_new {| now := 0; toDateString := "Mon Jan 01 2024" |} in
  let eng :=
    engine_call config
      (engine_call config start (Execute (Confirmed "0x123" (of_Z 0) 1200) 1 o))
      (Execute (SubmitRejected "reverted") 2 o) in
  reachable config eng
  /\ tradesExecuted (metrics eng) = successfulTrades (metrics eng)
  /\ tradesExecuted (metrics eng) = 1.
Proof.
  intros o start eng.
  assert (Hr : reachable config eng).
  { unfold eng. apply reachable_call, reachable_call, reachable_new. }
  split; [exact Hr|].
  destruct (trade_counters_agree config eng Hr) as [H _].
  split; [exact H|reflexivity].
Defined.

(** * Further properties *)

(** ** Risk gate *)

(** X1. Whenever [canTrade] answers [true], trading was not paused and the
    daily loss was below the cap, and the state it leaves has the breaker
    closed, the current day as its reset date and a daily loss that is
    either the one before or zero; if the breaker was open, its timeout
    had elapsed and the failure counter is back to zero. *)
Theorem canTrade_true_state (cfg : Config) (c : Clock) (rm : RiskManager) :
  (canTrade cfg c rm).1 = true ->
  let rm' := (canTrade cfg c rm).2 in
  tradingPaused rm = false
  /\ (dailyLoss rm >=? maxDailyLoss (risk cfg))%num = false
  /\ circuitBreakerOpen rm' = false
  /\ tradingPaused rm' = false
  /\ lastResetDate rm' = toDateString c
  /\ (dailyLoss rm' = dailyLoss rm \/ dailyLoss rm' = of_Z 0)
  /\ (circuitBreakerOpen rm = true ->
      circuitBreakerTimeoutMs (risk cfg) <= now c - circuitBreakerOpenTime rm
      /\ consecutiveFailures rm' = 0).
Proof.
  unfold canTrade. destruct (tradingPaused rm) eqn:Hp; [done|].
  destruct (circuitBreakerOpen rm) eqn:Ho.
  - destruct (Z.ltb_spec (now c - circuitBreakerOpenTime rm)
                (circuitBreakerTimeoutMs (risk cfg))) as [Hlt|Hge]; [done|].
    cbn [dailyLoss lastResetDate]. destruct (_ >=? _)%num eqn:Hd; [done|].
    destruct (String.eqb_spec (toDateString c) (lastResetDate rm)) as [He|Hne];
      cbn; intros _; repeat split; auto.
  - destruct (_ >=? _)%num eqn:Hd; [done|].
    destruct (String.eqb_spec (toDateString c) (lastResetDate rm)) as [He|Hne];
      cbn; intros _; repeat split; auto; done.
Qed.

(** X1 on a fresh risk manager the day after its construction. *)
Lemma canTrade_true_state_witness :
  let c := {| now := 86400000; toDateString := "Tue Jan 02 2024" |} in
  let rm := RiskManager_new {| now := 0; toDateString := "Mon Jan 01 2024" |} in
  (canTrade config c rm).1 = true
  /\ lastResetDate (canTrade config c rm).2 = "Tue Jan 02 2024"%string
  /\ circuitBreakerOpen (canTrade config c rm).2 = false.
Proof.
  intros c rm.
  assert (H : (canTrade config c rm).1 = true) by reflexivity.
  split; [exact H|].
  destruct (canTrade_true_state config c rm H) as (_ & _ & Ho & _ & Hd & _).
  split; [exact Hd|exact Ho].
Defined.

(** X2. A manual pause overrides everything else: however many times
    [canTrade] is asked while trading is paused, and whatever the clock
    reads, the answer is [false] and the state does not move, so a breaker
    whose timeout elapses during the pause is still open when trading
    resumes.  Pausing touches the pause flag only, and resuming after a
    pause gives the state that resuming alone gives. *)
Theorem pause_freezes_risk_state (cfg : Config) (rm : RiskManager)
    (cs : list Clock) :
  risk_run cfg (pauseTrading rm) (map CanTrade cs) = pauseTrading rm
  /\ (forall c, canTrade cfg c (pauseTrading rm) = (false, pauseTrading rm))
  /\ circuitBreakerOpen (pauseTrading rm) = circuitBreakerOpen rm
  /\ circuitBreakerOpenTime (pauseTrading rm) = circuitBreakerOpenTime rm
  /\ consecutiveFailures (pauseTrading rm) = consecutiveFailures rm
  /\ dailyLoss (pauseTrading rm) = dailyLoss rm
  /\ lastResetDate (pauseTrading rm) = lastResetDate rm
  /\ resumeTrading (pauseTrading rm) = resumeTrading rm
  /\ resumeTrading (risk_run cfg (pauseTrading rm) (map CanTrade cs))
     = resumeTrading rm.
Proof.
  assert (H : forall c, canTrade cfg c (pauseTrading rm) = (false, pauseTrading rm))
    by done.
  assert (R : risk_run cfg (pauseTrading rm) (map CanTrade cs) = pauseTrading rm).
  { induction cs as [|c cs IH]; [done|].
    cbn [map risk_run fold_left risk_call]. rewrite H. exact IH. }
  rewrite R. repeat split; done.
Qed.

(** X3. With a positive daily cap, asking [canTrade] a second time at the
    same clock reading gives the same answer and changes nothing more. *)
Theorem canTrade_idempotent (cfg : Config) (c : Clock) (rm : RiskManager) :
  (of_Z 0 >=? maxDailyLoss (risk cfg))%num = false ->
  canTrade cfg c (canTrade cfg c rm).2 = canTrade cfg c rm.
Proof.
  intros Hmax. destruct rm as [op ot cf dl lr pa].
  unfold canTrade.
  cbn [tradingPaused circuitBreakerOpen circuitBreakerOpenTime
       consecutiveFailures dailyLoss lastResetDate].
  destruct pa; cbn; [done|].
  destruct op; cbn.
  - destruct (now c - ot <? circuitBreakerTimeoutMs (risk cfg)) eqn:Ht; cbn;
      [by rewrite Ht|].
    destruct (dl >=? maxDailyLoss (risk cfg))%num eqn:Hd; cbn; [by rewrite Hd|].
    destruct (String.eqb (toDateString c) lr) eqn:He; cbn.
    + by rewrite Hd, He.
    + by rewrite Hmax, String.eqb_refl.
  - destruct (dl >=? maxDailyLoss (risk cfg))%num eqn:Hd; cbn; [by rewrite Hd|].
    destruct (String.eqb (toDateString c) lr) eqn:He; cbn.
    + by rewrite Hd, He.
    + by rewrite Hmax, String.eqb_refl.
Qed.

(** X3 on an open breaker whose timeout has elapsed, under the configured
    cap. *)
Lemma canTrade_idempotent_witness :
  let c := {| now := 400000; toDateString := "Mon Jan 01 2024" |} in
  let rm := recordFailures config [1; 2; 3; 4; 5]
              (RiskManager_new {| now := 0; toDateString := "Mon Jan 01 2024" |}) in
  canTrade config c (canTrade config c rm).2 = canTrade config c rm
  /\ (canTrade config c rm).1 = true.
Proof.
  intros c rm. split; [|reflexivity].
  apply (canTrade_idempotent config c rm). reflexivity.
Defined.

Section LossFacts.

Lemma abs_neg (a : num) : abs (neg a) = abs a.
Proof.
  destruct a as [[n d]| | |]; try done.
  cbn. unfold Qabs, Qopp. cbn. by rewrite Z.abs_opp.
Qed.

Lemma add_NaN_r (a : num) : (a + NaN)%num = NaN.
Proof. by destruct a. Qed.

Lemma geb_NaN_l (a : num) : (NaN >=? a)%num = false.
Proof. by destruct a. Qed.

Lemma sum_abs_nonneg (l : list Q) : (0 <= sum_abs l)%Q.
Proof.
  induction l as [|a l IH]; [done|].
  change (0 <= Qabs a + sum_abs l)%Q.
  pose proof (Qabs_nonneg a). lra.
Qed.

Lemma recordLosses_frame (amounts : list num) : forall rm,
  circuitBreakerOpen (recordLosses amounts rm) = circuitBreakerOpen rm
  /\ circuitBreakerOpenTime (recordLosses amounts rm) = circuitBreakerOpenTime rm
  /\ consecutiveFailures (recordLosses amounts rm) = consecutiveFailures rm
  /\ lastResetDate (recordLosses amounts rm) = lastResetDate rm
  /\ tradingPaused (recordLosses amounts rm) = tradingPaused rm.
Proof.
  induction amounts as [|a l IH]; intros rm; [done|].
  cbn [recordLosses fold_left]. unfold recordLosses in IH.
  destruct (IH (recordLoss a rm)) as (-> & -> & -> & -> & ->). done.
Qed.

Lemma recordLosses_NaN (amounts : list num) : forall rm,
  dailyLoss rm = NaN -> dailyLoss (recordLosses amounts rm) = NaN.
Proof.
  induction amounts as [|a l IH]; intros rm H; [done|].
  cbn [recordLosses fold_left]. unfold recordLosses in IH. apply IH.
  cbn. rewrite H. by destruct (abs a).
Qed.

End LossFacts.

(** X4. [recordLoss] adds the absolute value of its argument: a loss
    given as a negative amount counts like the same amount given positive,
    and after any run of finite losses the daily loss is the one before
    plus the sum of their absolute values, hence never smaller; nothing
    else in the risk state moves. *)
Theorem daily_loss_accumulates (rm : RiskManager) (d : Q) (losses : list Q) :
  dailyLoss rm = Fin d ->
  (exists d' : Q,
     dailyLoss (recordLosses (map Fin losses) rm) = Fin d'
     /\ (d' == d + sum_abs losses)%Q
     /\ (d <= d')%Q)
  /\ (forall a : num, recordLoss (neg a) rm = recordLoss a rm)
  /\ circuitBreakerOpen (recordLosses (map Fin losses) rm) = circuitBreakerOpen rm
  /\ consecutiveFailures (recordLosses (map Fin losses) rm) = consecutiveFailures rm
  /\ tradingPaused (recordLosses (map Fin losses) rm) = tradingPaused rm.
Proof.
  intros Hd. split; [|split].
  - revert rm d Hd. induction losses as [|a l IH]; intros rm d Hd.
    + exists d. cbn. split; [done|]. split; lra.
    + cbn [map recordLosses fold_left].
      destruct (IH (recordLoss (Fin a) rm) (d + Qabs a)%Q) as (d' & H1 & H2 & H3).
      { cbn. by rewrite Hd. }
      exists d'. split; [exact H1|].
      change (sum_abs (a :: l)) with (Qabs a + sum_abs l)%Q.
      pose proof (Qabs_nonneg a). split; lra.
  - intros a. unfold recordLoss. by rewrite abs_neg.
  - pose proof (recordLosses_frame (map Fin losses) rm) as (-> & _ & -> & _ & ->).
    done.
Qed.

(** X4 on three losses recorded on a fresh risk manager. *)
Lemma daily_loss_accumulates_witness :
  let rm := RiskManager_new {| now := 0; toDateString := "Mon Jan 01 2024" |} in
  exists d' : Q,
    dailyLoss (recordLosses (map Fin [(-300)%Q; 200%Q; (-500)%Q]) rm) = Fin d'
    /\ (d' == 1000)%Q.
Proof.
  intros rm.
  destruct (daily_loss_accumulates rm 0 [(-300)%Q; 200%Q; (-500)%Q])
    as [(d' & H1 & H2 & _) _]; [reflexivity|].
  exists d'. split; [exact H1|]. rewrite H2. reflexivity.
Defined.

(** X5. A loss that is not a number switches the daily cap off: once
    [recordLoss(NaN)] has been called the accumulated loss is [NaN],
    whatever was recorded before and whatever is recorded after, the
    comparison with the cap is false, and [canTrade] answers [true] when
    trading is not paused and the breaker is closed. *)
Theorem nan_loss_disables_cap (cfg : Config) (c : Clock) (rm : RiskManager)
    (before after : list num) :
  tradingPaused rm = false ->
  circuitBreakerOpen rm = false ->
  let rm' := recordLosses after (recordLoss NaN (recordLosses before rm)) in
  dailyLoss rm' = NaN
  /\ (canTrade cfg c rm').1 = true.
Proof.
  intros Hp Ho rm'.
  assert (Hn : dailyLoss rm' = NaN).
  { unfold rm'. apply recordLosses_NaN. cbn. apply add_NaN_r. }
  split; [exact Hn|].
  assert (Hp' : tradingPaused rm' = false).
  { unfold rm'.
    pose proof (recordLosses_frame after (recordLoss NaN (recordLosses before rm)))
      as (_ & _ & _ & _ & ->). cbn.
    by pose proof (recordLosses_frame before rm) as (_ & _ & _ & _ & ->). }
  assert (Ho' : circuitBreakerOpen rm' = false).
  { unfold rm'.
    pose proof (recordLosses_frame after (recordLoss NaN (recordLosses before rm)))
      as (-> & _). cbn.
    by pose proof (recordLosses_frame before rm) as (-> & _). }
  unfold canTrade. rewrite Hp', Ho', Hn, geb_NaN_l.
  by destruct (negb _).
Qed.

(** X5 with 5000 USD of losses around the [NaN], under the configured cap
    of 1000. *)
Lemma nan_loss_disables_cap_witness :
  let c := {| now := 0; toDateString := "Mon Jan 01 2024" |} in
  let rm' := recordLosses [of_Z 3000]
               (recordLoss NaN (recordLosses [of_Z 2000] (RiskManager_new c))) in
  dailyLoss rm' = NaN /\ (canTrade config c rm').1 = true.
Proof.
  intros c rm'.
  apply (nan_loss_disables_cap config c (RiskManager_new c) [of_Z 2000] [of_Z 3000]);
    reflexivity.
Defined.

(** X6. [loadDailyMetrics] never stores [NaN]: a row that parses to [NaN]
    or to zero loads 0, any other value is loaded as it is; a failed query
    leaves the state as it was; and in every case the breaker, the failure
    counter, the reset date and the pause flag are not touched. *)
Theorem loadDailyMetrics_never_NaN (rm : RiskManager) (row : option num) :
  (dailyLoss rm <> NaN -> dailyLoss (loadDailyMetrics row rm) <> NaN)
  /\ (forall v, dailyLoss (loadDailyMetrics (Some v) rm) <> NaN)
  /\ dailyLoss (loadDailyMetrics (Some NaN) rm) = of_Z 0
  /\ loadDailyMetrics None rm = rm
  /\ circuitBreakerOpen (loadDailyMetrics row rm) = circuitBreakerOpen rm
  /\ consecutiveFailures (loadDailyMetrics row rm) = consecutiveFailures rm
  /\ lastResetDate (loadDailyMetrics row rm) = lastResetDate rm
  /\ tradingPaused (loadDailyMetrics row rm) = tradingPaused rm.
Proof.
  assert (H : forall v, dailyLoss (loadDailyMetrics (Some v) rm) <> NaN).
  { intros [q| | |]; cbn; try done. by destruct (Qis0 q). }
  split; [|split; [exact H|]].
  - intros Hn. destruct row as [v|]; [apply H|exact Hn].
  - by destruct row.
Qed.

Section BreakerInvariant.

Variable cfg : Config.

Lemma breaker_invariant_call rm k :
  breaker_invariant cfg rm ->
  is_recordSuccess k = false ->
  breaker_invariant cfg (risk_call cfg rm k).
Proof.
  unfold breaker_invariant. intros [Hopen Hnn] Hk.
  destruct k as [row|c|t| |a| |]; cbn [risk_call]; try done.
  - by destruct row.
  - destruct rm as [op ot cf dl lr pa]. unfold canTrade.
    cbn [tradingPaused circuitBreakerOpen circuitBreakerOpenTime
         consecutiveFailures dailyLoss lastResetDate] in *.
    destruct pa; [done|]. destruct op.
    + destruct (_ <? _); [done|]. cbn.
      destruct (_ >=? _)%num; [done|]. by destruct (negb _).
    + destruct (_ >=? _)%num; [done|]. by destruct (negb _).
  - unfold recordFailure.
    destruct (Z.geb_spec (consecutiveFailures rm + 1)
                (maxConsecutiveFailures (risk cfg))) as [Hge|Hlt]; cbn.
    + split; [intros _|]; lia.
    + split; [intros Ho; specialize (Hopen Ho)|]; lia.
Qed.

Lemma breaker_invariant_run ks : forall rm,
  breaker_invariant cfg rm ->
  forallb (fun k => negb (is_recordSuccess k)) ks = true ->
  breaker_invariant cfg (risk_run cfg rm ks).
Proof.
  induction ks as [|k ks IH]; intros rm Hinv Hks; [done|].
  cbn [forallb] in Hks. apply andb_true_iff in Hks. destruct Hks as [Hk Hks].
  cbn [risk_run fold_left]. apply IH; [|done].
  apply breaker_invariant_call; [done|]. by apply negb_true_iff.
Qed.

End BreakerInvariant.

(** X7. In every risk state reached from construction by calls other than
    [recordSuccess] (the engine never calls it), an open breaker has a
    failure counter at or above [maxConsecutiveFailures], and the counter
    is never negative.  In such a state a failure recorded while the
    breaker is open stamps the opening time again, so the timeout restarts
    from that failure: [canTrade] stays [false] until a full timeout after
    it.  [recordSuccess] on an open breaker breaks the invariant: the
    counter drops to zero and the breaker stays open. *)
Theorem open_breaker_has_reached_threshold (cfg : Config) (c : Clock)
    (ks : list RiskCall) :
  forallb (fun k => negb (is_recordSuccess k)) ks = true ->
  let rm := risk_run cfg (RiskManager_new c) ks in
  breaker_invariant cfg rm
  /\ (circuitBreakerOpen rm = true ->
      forall t,
        circuitBreakerOpen (recordFailure cfg t rm) = true
        /\ circuitBreakerOpenTime (recordFailure cfg t rm) = t
        /\ forall c', now c' - t < circuitBreakerTimeoutMs (risk cfg) ->
             canTrade cfg c' (recordFailure cfg t rm)
             = (false, recordFailure cfg t rm))
  /\ (circuitBreakerOpen rm = true ->
      1 <= maxConsecutiveFailures (risk cfg) ->
      circuitBreakerOpen (recordSuccess rm) = true
      /\ ~ breaker_invariant cfg (recordSuccess rm)).
Proof.
  intros Hks rm.
  assert (Hinv : breaker_invariant cfg rm).
  { apply breaker_invariant_run; [|done]. split; [done|]. cbn. lia. }
  split; [exact Hinv|]. split.
  - intros Ho t. destruct Hinv as [Hopen _]. specialize (Hopen Ho).
    destruct (recordFailure_trips cfg t rm) as [H1 H2]; [lia|].
    split; [exact H1|]. split; [exact H2|].
    intros c' Hc'. apply canTrade_open_early; [exact H1|]. by rewrite H2.
  - intros Ho Hmax. split; [exact Ho|].
    intros [Hbad _]. cbn in Hbad. specialize (Hbad Ho). lia.
Qed.

(** X7 after six failures and a pause, under the configured threshold. *)
Lemma open_breaker_has_reached_threshold_witness :
  let c := {| now := 0; toDateString := "Mon Jan 01 2024" |} in
  let ks := [RecordFailure 1; RecordFailure 2; RecordFailure 3;
             RecordFailure 4; RecordFailure 5; PauseTrading; RecordFailure 6] in
  let rm := risk_run config (RiskManager_new c) ks in
  circuitBreakerOpen rm = true
  /\ breaker_invariant config rm
  /\ circuitBreakerOpenTime (recordFailure config 1000 rm) = 1000.
Proof.
  intros c ks rm.
  destruct (open_breaker_has_reached_threshold config c ks) as (Hinv & Hre & _);
    [reflexivity|].
  assert (Ho : circuitBreakerOpen rm = true) by reflexivity.
  split; [exact Ho|]. split; [exact Hinv|].
  destruct (Hre Ho 1000) as (_ & Ht & _). exact Ht.
Defined.

(** X8. [getRiskMetrics] is not a plain read.  The fields of its report
    are the values before the call, its [canTrade] field is the verdict of
    [canTrade], and the state it leaves is the one [canTrade] leaves: on an
    open breaker whose timeout has elapsed (trading not paused) the report
    still shows the breaker open and the old failure count, while the
    breaker has just been closed and the counter zeroed by the call. *)
Theorem getRiskMetrics_runs_canTrade (cfg : Config) (c : Clock)
    (rm : RiskManager) :
  (getRiskMetrics cfg c rm).2 = (canTrade cfg c rm).2
  /\ report_canTrade (getRiskMetrics cfg c rm).1 = (canTrade cfg c rm).1
  /\ report_circuitBreakerOpen (getRiskMetrics cfg c rm).1 = circuitBreakerOpen rm
  /\ report_consecutiveFailures (getRiskMetrics cfg c rm).1 = consecutiveFailures rm
  /\ report_dailyLoss (getRiskMetrics cfg c rm).1 = dailyLoss rm
  /\ report_tradingPaused (getRiskMetrics cfg c rm).1 = tradingPaused rm
  /\ (tradingPaused rm = false ->
      circuitBreakerOpen rm = true ->
      circuitBreakerTimeoutMs (risk cfg) <= now c - circuitBreakerOpenTime rm ->
      report_circuitBreakerOpen (getRiskMetrics cfg c rm).1 = true
      /\ circuitBreakerOpen (getRiskMetrics cfg c rm).2 = false
      /\ consecutiveFailures (getRiskMetrics cfg c rm).2 = 0).
Proof.
  unfold getRiskMetrics.
  destruct (canTrade cfg c rm) as [ok rm'] eqn:E. cbn.
  do 6 (split; [done|]).
  intros Hp Ho Ht.
  pose proof (canTrade_open_late cfg c rm Hp Ho Ht) as [Hclosed Hzero].
  rewrite E in Hclosed, Hzero. done.
Qed.

(** ** Profitability estimator *)

Section EstimatorFacts.

Variable cfg : Config.

Lemma updateGasPrice_idempotent f pc :
  updateGasPrice f (updateGasPrice f pc) = updateGasPrice f pc.
Proof.
  unfold updateGasPrice at 2 3.
  destruct (feed_now f - lastGasPriceUpdate pc <? gasPriceUpdateInterval) eqn:E.
  - unfold updateGasPrice. by rewrite E.
  - destruct (feed_feeData f) as [fd|] eqn:F.
    + unfold updateGasPrice. cbn [lastGasPriceUpdate].
      by rewrite Z.sub_diag.
    + unfold updateGasPrice. by rewrite E, F.
Qed.

Lemma calculateNetProfit_calculator f pc o :
  (calculateNetProfit cfg f pc o).2 = updateGasPrice f pc.
Proof.
  unfold calculateNetProfit.
  by destruct (dexes cfg !! buyDEX o), (dexes cfg !! sellDEX o).
Qed.

Lemma mul_NaN_r (a : num) : (a * NaN)%num = NaN.
Proof. by destruct a. Qed.

Lemma div_NaN_r (a : num) : (a / NaN)%num = NaN.
Proof. by destruct a. Qed.

Lemma sub_NaN_r (a : num) : (a - NaN)%num = NaN.
Proof. by destruct a. Qed.

(** A reserve that is not a number makes the slippage percentage of the
    venue not a number. *)
Lemma estimateSlippageImpact_NaN f d pair amt pdata :
  feed_pair f d pair = Some pdata ->
  reserveA pdata = NaN \/ reserveB pdata = NaN ->
  estimateSlippageImpact cfg f (Some d) pair amt = NaN.
Proof.
  intros Hf Hr. unfold estimateSlippageImpact. cbn. rewrite Hf.
  assert (Hout : (amt * reserveB pdata / (reserveA pdata + amt))%num = NaN).
  { destruct Hr as [-> | ->].
    - cbn [add]. apply div_NaN_r.
    - by rewrite mul_NaN_r. }
  by rewrite Hout, sub_NaN_r.
Qed.

End EstimatorFacts.

(** X9. Estimation is idempotent: a second [calculateNetProfit] on the
    same opportunity with the same feeds, run on the calculator the first
    call left, returns the same result and leaves the calculator as it
    is (the gas price fetched by the first call is younger than the
    refresh interval). *)
Theorem estimation_idempotent (cfg : Config) (f : CostFeeds)
    (pc : ProfitCalculator) (o : Opportunity) :
  calculateNetProfit cfg f (calculateNetProfit cfg f pc o).2 o
  = calculateNetProfit cfg f pc o.
Proof.
  rewrite calculateNetProfit_calculator.
  unfold calculateNetProfit. by rewrite updateGasPrice_idempotent.
Qed.

(** X10. With a finite gas limit and buffer in the configuration the gas
    estimate is the buffered limit, rounded down, times the gas price (the
    cached one, or 20 gwei when none is cached or it is zero), converted
    from wei to ether and priced at the ETH price of the feed (2000 when
    the feed is down); the fixed estimate of 50 USD of the [catch] block is
    never returned. *)
Theorem gas_estimate_closed_form (cfg : Config) (f : CostFeeds)
    (pc : ProfitCalculator) (l b : Q) :
  gasLimit cfg = Fin l ->
  gasBufferPercent (trading cfg) = Fin b ->
  estimateGasFees cfg f pc
  = (Fin ((Qfloor (l * (inject_Z 1 + b / inject_Z 100))
           * or_else (gasPrice pc) default_gas_price)
          # 1000000000000000000)
     * getETHPriceUSD f)%num.
Proof.
  intros Hl Hb. unfold estimateGasFees. rewrite Hl, Hb. cbn [of_Z div add mul floor].
  change (Qis0 (inject_Z 100)) with false. cbn [floor to_BigInt].
  rewrite Qfloor_Z, Qeq_bool_refl. done.
Qed.

(** X10 under the configured limit of 300000 and buffer of 20%, every feed
    down: 360000 gas at 20 gwei and 2000 USD per ETH, that is 14.40 USD. *)
Lemma gas_estimate_closed_form_witness :
  let f := {| feed_now := 0; feed_feeData := None; feed_ethPrice := None;
              feed_fetcher := true; feed_pair := fun _ _ => None |} in
  (estimateGasFees config f ProfitCalculator_new == dec 144 10)%num.
Proof.
  intros f.
  rewrite (gas_estimate_closed_form config f ProfitCalculator_new 300000 20);
    reflexivity.
Defined.

(** X11. For a pool whose quoted price is the ratio of its reserves (what
    the contract source of [fetchTokenPairPrice] returns), with positive
    reserves and a positive amount, the slippage percentage estimated by
    the constant-product formula is [100 * amount / (reserveA + amount)]:
    it depends on the size of the trade against the reserve of the token
    sold only, and lies strictly between 0 and 100. *)
Theorem constant_product_slippage (cfg : Config) (f : CostFeeds)
    (d : DexConfig) (pair : string) (a p rA rB : Q) :
  feed_pair f d pair
  = Some {| pd_price := Fin p; reserveA := Fin rA; reserveB := Fin rB |} ->
  (p == rB / rA)%Q ->
  (0 < a)%Q -> (0 < rA)%Q -> (0 < rB)%Q ->
  exists x : Q,
    estimateSlippageImpact cfg f (Some d) pair (Fin a) = Fin x
    /\ (x == 100 * a / (rA + a))%Q
    /\ (0 < x)%Q /\ (x < 100)%Q.
Proof.
  intros Hf Hp Ha HrA HrB.
  assert (Hsum : (0 < rA + a)%Q) by lra.
  assert (Hexp : (0 < a * p)%Q).
  { apply Qmult_lt_0_compat; [done|]. rewrite Hp.
    apply Qlt_shift_div_l; [done|]. lra. }
  assert (HnA : ~ (rA == 0)%Q) by (intros E; rewrite E in HrA; by apply Qlt_irrefl in HrA).
  assert (HnS : ~ (rA + a == 0)%Q) by (intros E; rewrite E in Hsum; by apply Qlt_irrefl in Hsum).
  assert (HnB : ~ (rB == 0)%Q) by (intros E; rewrite E in HrB; by apply Qlt_irrefl in HrB).
  assert (Hgap : (a * p + - (a * rB / (rA + a)) == a * p * (a / (rA + a)))%Q).
  { rewrite Hp. field. split; done. }
  assert (Hfrac : (0 < a / (rA + a))%Q).
  { apply Qlt_shift_div_l; [done|]. lra. }
  assert (Hfrac1 : (a / (rA + a) < 1)%Q).
  { apply Qlt_shift_div_r; [done|]. lra. }
  assert (Hpos : (0 <= a * p + - (a * rB / (rA + a)))%Q).
  { rewrite Hgap. apply Qlt_le_weak. by apply Qmult_lt_0_compat. }
  unfold estimateSlippageImpact. cbn [mbind option_bind]. rewrite Hf.
  cbn [pd_price reserveA reserveB mul add div sub neg abs of_Z].
  rewrite (Qis0_pos _ Hsum). cbn [neg add abs div].
  rewrite (Qis0_pos _ Hexp). cbn [mul].
  eexists. split; [reflexivity|].
  assert (Hx : (Qabs (a * p + - (a * rB / (rA + a))) / (a * p) * inject_Z 100
                == 100 * a / (rA + a))%Q).
  { rewrite (Qabs_pos _ Hpos), Hgap.
    change (inject_Z 100) with 100%Q. field.
    split; [done|]. split; intros E; rewrite E in Hexp.
    - rewrite Qmult_0_r in Hexp. by apply Qlt_irrefl in Hexp.
    - rewrite Qmult_0_l in Hexp. by apply Qlt_irrefl in Hexp. }
  split; [exact Hx|]. rewrite Hx.
  assert (E : (100 * a / (rA + a) == 100 * (a / (rA + a)))%Q) by (by field).
  rewrite E. split; lra.
Qed.

(** X11 on a pool of 1000 against 2000000 and a trade of 10. *)
Lemma constant_product_slippage_witness :
  let pool := {| pd_price := Fin 2000; reserveA := Fin 1000;
                 reserveB := Fin 2000000 |} in
  let f := {| feed_now := 0; feed_feeData := None; feed_ethPrice := None;
              feed_fetcher := true; feed_pair := fun _ _ => Some pool |} in
  let d := {| dex_name := "Uniswap V2"; router := "r"; factory := "f";
              fee := dec 3 1000 |} in
  exists x : Q,
    estimateSlippageImpact config f (Some d) "WETH/USDC" (Fin 10) = Fin x
    /\ (x == 100 * 10 / (1000 + 10))%Q.
Proof.
  intros pool f d.
  destruct (constant_product_slippage config f d "WETH/USDC" 10 2000 1000 2000000)
    as (x & H1 & H2 & _); try reflexivity.
  exists x. split; [exact H1|exact H2].
Defined.

(** X12. Price data without reserves makes every estimate unprofitable:
    when the data fetched for the buy venue or for the sell venue has a
    reserve that is not a number (the GraphQL source supplies none), the
    slippage impact and the net profit are [NaN], the margin is 0,
    [profitable] is false and [validateOpportunity] rejects the
    opportunity, whatever its prices. *)
Theorem missing_reserves_never_profitable (cfg : Config) (f : CostFeeds)
    (pc : ProfitCalculator) (o : Opportunity) (bd sd : DexConfig)
    (pdata : PriceData) :
  dexes cfg !! buyDEX o = Some bd ->
  dexes cfg !! sellDEX o = Some sd ->
  feed_fetcher f = true ->
  feed_pair f bd (tokenPair o) = Some pdata
  \/ feed_pair f sd (tokenPair o) = Some pdata ->
  reserveA pdata = NaN \/ reserveB pdata = NaN ->
  exists r : ProfitAnalysis,
    (calculateNetProfit cfg f pc o).1 = Ok r
    /\ slippageImpact r = NaN
    /\ netProfit r = NaN
    /\ profitMargin r = of_Z 0
    /\ profitable r = false
    /\ validateOpportunity cfg {| opp := o; analysis := r |} = false.
Proof.
  intros Hb Hs Hfetch Hdata Hnan.
  assert (Hslip : calculateSlippageImpact cfg f o = NaN).
  { unfold calculateSlippageImpact. rewrite Hfetch, Hb, Hs.
    destruct Hdata as [Hd|Hd];
      rewrite (estimateSlippageImpact_NaN cfg f _ _ _ pdata Hd Hnan).
    - cbn [add]. by rewrite mul_NaN_r.
    - by rewrite add_NaN_r, mul_NaN_r. }
  unfold calculateNetProfit. rewrite Hb, Hs, Hslip, !sub_NaN_r.
  eexists. split; [reflexivity|]. cbn [slippageImpact netProfit profitMargin profitable].
  repeat split.
  - apply geb_NaN_l.
  - unfold validateOpportunity, validations. cbn [forallb passed
      checkProfitThreshold analysis netProfit]. by rewrite geb_NaN_l.
Qed.

(** X12 on uniswap and sushiswap, both answering with a price and no
    reserves. *)
Lemma missing_reserves_never_profitable_witness :
  let graph := {| pd_price := of_Z 2000; reserveA := NaN; reserveB := NaN |} in
  let f := {| feed_now := 0; feed_feeData := None; feed_ethPrice := None;
              feed_fetcher := true; feed_pair := fun _ _ => Some graph |} in
  exists r : ProfitAnalysis,
    (calculateNetProfit config f ProfitCalculator_new weth_usdc_opportunity).1
    = Ok r
    /\ netProfit r = NaN /\ profitable r = false.
Proof.
  intros graph f.
  destruct (dexes config !! "uniswap"%string) as [bd|] eqn:Eb; [|discriminate].
  destruct (dexes config !! "sushiswap"%string) as [sd|] eqn:Es; [|discriminate].
  destruct (missing_reserves_never_profitable config f ProfitCalculator_new
              weth_usdc_opportunity bd sd graph)
    as (r & H1 & _ & H2 & _ & H3 & _).
  - exact Eb.
  - exact Es.
  - reflexivity.
  - left. reflexivity.
  - left. reflexivity.
  - exists r. split; [exact H1|]. split; [exact H2|exact H3].
Defined.

(** X13. When the reserves of neither venue can be fetched, each venue is
    charged the full [maxSlippagePercent], the estimated slippage comes to
    twice the tolerance, and the slippage check of the risk gate fails: no
    opportunity with a finite price and amount is validated, whatever its
    spread. *)
Theorem unavailable_reserves_are_rejected (cfg : Config) (f : CostFeeds)
    (pc : ProfitCalculator) (o : Opportunity) (bd sd : DexConfig) (m b a : Q) :
  dexes cfg !! buyDEX o = Some bd ->
  dexes cfg !! sellDEX o = Some sd ->
  feed_fetcher f = true ->
  feed_pair f bd (tokenPair o) = None ->
  feed_pair f sd (tokenPair o) = None ->
  maxSlippagePercent (trading cfg) = Fin m -> (0 < m)%Q ->
  buyPrice o = Fin b -> amount o = Fin a ->
  exists r : ProfitAnalysis,
    (calculateNetProfit cfg f pc o).1 = Ok r
    /\ (slippageImpact r == Fin (b * a * ((m + m) / 100)))%num
    /\ passed (checkSlippageTolerance cfg {| opp := o; analysis := r |}) = false
    /\ validateOpportunity cfg {| opp := o; analysis := r |} = false.
Proof.
  intros Hb Hs Hfetch Hfb Hfs Hm Hpos Hbuy Hamt.
  assert (Hslip : calculateSlippageImpact cfg f o
                  = Fin (b * a * ((m + m) / inject_Z 100))).
  { unfold calculateSlippageImpact, estimateSlippageImpact.
    rewrite Hfetch, Hb, Hs. cbn [mbind option_bind]. rewrite Hfb, Hfs, Hm, Hbuy, Hamt.
    reflexivity. }
  unfold calculateNetProfit. rewrite Hb, Hs, Hslip.
  eexists. split; [reflexivity|]. cbn [slippageImpact].
  assert (Hcheck : passed (checkSlippageTolerance cfg
                     {| opp := o;
                        analysis := {| grossProfit := of_Z 0; gasEstimate := of_Z 0;
                          platformFees := of_Z 0;
                          slippageImpact := Fin (b * a * ((m + m) / inject_Z 100));
                          netProfit := of_Z 0; profitMargin := of_Z 0;
                          profitable := false; buyAmount := of_Z 0;
                          sellAmount := of_Z 0; buyFee := of_Z 0;
                          sellFee := of_Z 0 |} |}) = false).
  { unfold checkSlippageTolerance. cbn [passed opp analysis slippageImpact].
    rewrite Hbuy, Hamt, Hm. cbn [mul div of_Z].
    destruct (Qis0 (b * a)) eqn:Ez.
    - unfold inf_of_sign. apply Qeq_bool_iff in Ez.
      assert (Ez' : Qis0 (b * a * ((m + m) / inject_Z 100)) = true).
      { apply Qeq_bool_iff. rewrite Ez. ring. }
      by rewrite Ez'.
    - cbn [mul leb]. apply not_true_is_false. intros Hle.
      apply Qle_bool_iff in Hle. apply Qeq_bool_neq in Ez.
      assert (E : (b * a * ((m + m) / inject_Z 100) / (b * a) * inject_Z 100
                   == m + m)%Q).
      { change (inject_Z 100) with 100%Q. field.
        split; intros E0; apply Ez; rewrite E0; ring. }
      rewrite E in Hle. lra. }
  split; [cbn; change (inject_Z 100) with 100%Q; reflexivity|].
  split.
  - exact Hcheck.
  - unfold validateOpportunity, validations. cbn [forallb].
    unfold checkSlippageTolerance in *. cbn [passed opp analysis slippageImpact] in *.
    rewrite Hcheck. by rewrite andb_false_r.
Qed.

(** X13 on the detector's candidate for 2000 against 2100, a spread of 5%,
    under the configured tolerance of 5%. *)
Lemma unavailable_reserves_are_rejected_witness :
  let f := {| feed_now := 0; feed_feeData := None; feed_ethPrice := None;
              feed_fetcher := true; feed_pair := fun _ _ => None |} in
  exists r : ProfitAnalysis,
    (calculateNetProfit config f ProfitCalculator_new weth_usdc_opportunity).1
    = Ok r
    /\ validateOpportunity config
         {| opp := weth_usdc_opportunity; analysis := r |} = false.
Proof.
  intros f.
  destruct (dexes config !! "uniswap"%string) as [bd|] eqn:Eb; [|discriminate].
  destruct (dexes config !! "sushiswap"%string) as [sd|] eqn:Es; [|discriminate].
  destruct (unavailable_reserves_are_rejected config f ProfitCalculator_new
              weth_usdc_opportunity bd sd 5 2000 (1000 / 2000))
    as (r & H1 & _ & _ & H2); try reflexivity.
  - exact Eb.
  - exact Es.
  - exists r. split; [exact H1|exact H2].
Defined.

(** ** Dispatcher *)

Section SubmissionFacts.

Variable cfg : Config.

Lemma attempts_cons i e eng l :
  effects eng = e :: l ->
  settlement_attempts i eng
  = if decide (e = Submitted i)
    then S (length (filter (fun e => e = Submitted i) l))
    else length (filter (fun e => e = Submitted i) l).
Proof.
  intros H. unfold settlement_attempts. rewrite H, filter_cons.
  by destruct (decide (e = Submitted i)).
Qed.

(** The effects of one execution: the contract call, the trade row, the
    event. *)
Lemma effects_executeArbitrage s tfail o eng :
  exists status event,
    effects (executeArbitrage cfg s tfail o eng)
    = Emitted event (id (opp o)) :: TradeRecorded (id (opp o)) status
      :: Submitted (id (opp o)) :: effects eng.
Proof. destruct s; by do 2 eexists. Qed.

Lemma attempts_executeArbitrage i s tfail o eng :
  settlement_attempts i (executeArbitrage cfg s tfail o eng)
  = if decide (id (opp o) = i) then S (settlement_attempts i eng)
    else settlement_attempts i eng.
Proof.
  destruct (effects_executeArbitrage s tfail o eng) as (st & ev & H).
  unfold settlement_attempts. rewrite H, !filter_cons.
  rewrite decide_False by done. rewrite decide_False by done.
  destruct (decide (id (opp o) = i)) as [->|Hne].
  - by rewrite decide_True.
  - rewrite decide_False; [done|]. intros [= E]. done.
Qed.

(** A result of [calculateNetProfit] that passes validation is
    profitable: the profit check of the gate and the [profitable] flag are
    the same comparison. *)
Lemma validated_is_profitable f pc o r :
  (calculateNetProfit cfg f pc o).1 = Ok r ->
  validateOpportunity cfg {| opp := o; analysis := r |} = true ->
  profitable r = true.
Proof.
  unfold calculateNetProfit.
  destruct (dexes cfg !! buyDEX o); [|done].
  destruct (dexes cfg !! sellDEX o); [|done].
  cbn [fst]. intros [= <-]. unfold validateOpportunity, validations.
  cbn [forallb passed checkProfitThreshold analysis netProfit profitable].
  intros H. by apply andb_true_iff in H as [H _].
Qed.

End SubmissionFacts.

(** X14. Every validated opportunity is sent to settlement: when the
    estimate of an opportunity passes [validateOpportunity] it is
    profitable as well, so the branch that only logs a validated but
    unprofitable opportunity is never taken; the resumed processing
    records the opportunity as validated and calls the contract exactly
    once for its id. *)
Theorem validated_is_submitted (cfg : Config) (e : ProcessEnv)
    (o : Opportunity) (eng : ArbitrageEngine) (r : ProfitAnalysis) :
  (calculateNetProfit cfg (env_feeds e) (profitCalculator eng) o).1 = Ok r ->
  validateOpportunity cfg {| opp := o; analysis := r |} = true ->
  profitable r = true
  /\ settlement_attempts (id o) (processOpportunity_resume cfg e o eng)
     = S (settlement_attempts (id o) eng)
  /\ In (OpportunityRecorded (id o) "validated")
       (effects (processOpportunity_resume cfg e o eng)).
Proof.
  intros Hr Hv.
  pose proof (validated_is_profitable cfg _ _ _ _ Hr Hv) as Hp.
  split; [exact Hp|].
  unfold processOpportunity_resume.
  destruct (calculateNetProfit cfg (env_feeds e) (profitCalculator eng) o)
    as [r' pc] eqn:E. cbn [fst] in Hr. subst r'.
  rewrite Hv, Hp. cbn [negb].
  set (eng' := with_effect _ _).
  split.
  - change (settlement_attempts (id o)
              (executeArbitrage cfg (env_settlement e) (env_failure_time e)
                 {| opp := o; analysis := r |} eng')
            = S (settlement_attempts (id o) eng)).
    rewrite attempts_executeArbitrage. cbn [opp].
    rewrite decide_True by done. reflexivity.
  - cbn [effects with_opportunities].
    destruct (effects_executeArbitrage cfg (env_settlement e) (env_failure_time e)
                {| opp := o; analysis := r |} eng') as (st & ev & ->).
    do 3 right. unfold eng'. by left.
Qed.

(** X14 on the detector's candidate for 2000 against 2100 with deep
    reserves. *)
Lemma validated_is_submitted_witness :
  let eng := ArbitrageEngine_new {| now := 0; toDateString := "Mon Jan 01 2024" |} in
  settlement_attempts (id weth_usdc_opportunity)
    (processOpportunity_resume config settled_env weth_usdc_opportunity eng)
  = 1%nat.
Proof.
  intros eng.
  destruct (calculateNetProfit config (env_feeds settled_env)
              (profitCalculator eng) weth_usdc_opportunity) as [[r|msg] pc] eqn:E;
    [|by vm_compute in E].
  destruct (validated_is_submitted config settled_env weth_usdc_opportunity eng r)
    as (_ & H & _).
  - by rewrite E.
  - assert (Hr : r = match (calculateNetProfit config (env_feeds settled_env)
                             (profitCalculator eng) weth_usdc_opportunity).1 with
                     | Ok x => x | Throw _ => r end) by (by rewrite E).
    rewrite Hr. by vm_compute.
  - exact H.
Defined.

(** X15. Nothing is sent to settlement that was not validated: one call of
    [processOpportunity] makes at most one contract call, for the id of
    its own opportunity only, and it makes one only if that id was not in
    flight, the estimate was returned, [validateOpportunity] accepted it
    and it is profitable. *)
Theorem no_settlement_without_validation (cfg : Config) (e : ProcessEnv)
    (o : Opportunity) (eng : ArbitrageEngine) (i : string) :
  let eng' := processOpportunity cfg e o eng in
  settlement_attempts i eng' = settlement_attempts i eng
  \/ (settlement_attempts i eng' = S (settlement_attempts i eng)
      /\ i = id o
      /\ opportunities eng !! id o = None
      /\ exists r,
           (calculateNetProfit cfg (env_feeds e) (profitCalculator eng) o).1 = Ok r
           /\ validateOpportunity cfg {| opp := o; analysis := r |} = true
           /\ profitable r = true).
Proof.
  cbv zeta. unfold processOpportunity, processOpportunity_enter.
  destruct (opportunities eng !! id o) eqn:Hin; [by left|].
  unfold processOpportunity_resume.
  cbn [profitCalculator with_metrics with_opportunities].
  destruct (calculateNetProfit cfg (env_feeds e) (profitCalculator eng) o)
    as [[r|msg] pc] eqn:E; [|by left].
  destruct (validateOpportunity cfg {| opp := o; analysis := r |}) eqn:Hv;
    cbn [negb].
  - pose proof (validated_is_profitable cfg (env_feeds e) (profitCalculator eng) o r) as Hp.
    rewrite E in Hp. specialize (Hp eq_refl Hv). rewrite Hp.
    set (eng1 := with_effect _ _).
    change (settlement_attempts i
              (with_opportunities _ (executeArbitrage cfg (env_settlement e)
                 (env_failure_time e) {| opp := o; analysis := r |} eng1)))
      with (settlement_attempts i
              (executeArbitrage cfg (env_settlement e)
                 (env_failure_time e) {| opp := o; analysis := r |} eng1)).
    rewrite attempts_executeArbitrage. cbn [opp].
    assert (H1 : settlement_attempts i eng1 = settlement_attempts i eng).
    { reflexivity. }
    rewrite H1. destruct (decide (id o = i)) as [<-|Hne]; [right|by left].
    split; [done|]. split; [done|]. split; [done|]. by exists r.
  - left. reflexivity.
Qed.

Section InFlightFacts.

Variable cfg : Config.

Lemma executeArbitrage_opportunities s tfail o eng :
  opportunities (executeArbitrage cfg s tfail o eng) = opportunities eng
  /\ opportunitiesFound (metrics (executeArbitrage cfg s tfail o eng))
     = opportunitiesFound (metrics eng).
Proof. by destruct s. Qed.

Lemma resume_opportunities e o eng :
  opportunities (processOpportunity_resume cfg e o eng)
  = delete (id o) (opportunities eng)
  /\ opportunitiesFound (metrics (processOpportunity_resume cfg e o eng))
     = opportunitiesFound (metrics eng).
Proof.
  unfold processOpportunity_resume.
  destruct (calculateNetProfit cfg (env_feeds e) (profitCalculator eng) o)
    as [[r|msg] pc]; [|done].
  destruct (negb (validateOpportunity cfg _)); [done|].
  destruct (profitable r); [|done].
  cbn [opportunities metrics with_opportunities].
  set (eng' := with_effect _ _).
  destruct (executeArbitrage_opportunities (env_settlement e)
              (env_failure_time e) {| opp := o; analysis := r |} eng')
    as [-> ->]. done.
Qed.

End InFlightFacts.

(** X16. A call of [processOpportunity] that runs to its end always leaves
    the in-flight map without the id of its opportunity, whether the
    estimate threw, the gate rejected it or the settlement failed: for an
    id that was not in flight the map is exactly what it was and
    [opportunitiesFound] has grown by one; for an id that was in flight
    the counter does not move. *)
Theorem processOpportunity_cleans_up (cfg : Config) (e : ProcessEnv)
    (o : Opportunity) (eng : ArbitrageEngine) :
  opportunities (processOpportunity cfg e o eng)
  = delete (id o) (opportunities eng)
  /\ opportunities (processOpportunity cfg e o eng) !! id o = None
  /\ (opportunities eng !! id o = None ->
      opportunities (processOpportunity cfg e o eng) = opportunities eng
      /\ opportunitiesFound (metrics (processOpportunity cfg e o eng))
         = opportunitiesFound (metrics eng) + 1)
  /\ (is_Some (opportunities eng !! id o) ->
      opportunitiesFound (metrics (processOpportunity cfg e o eng))
      = opportunitiesFound (metrics eng)).
Proof.
  assert (H : opportunities (processOpportunity cfg e o eng)
              = delete (id o) (opportunities eng)
              /\ opportunitiesFound (metrics (processOpportunity cfg e o eng))
                 = match opportunities eng !! id o with
                   | Some _ => opportunitiesFound (metrics eng)
                   | None => opportunitiesFound (metrics eng) + 1
                   end).
  { unfold processOpportunity, processOpportunity_enter.
    destruct (opportunities eng !! id o) eqn:Hin; [done|].
    set (eng1 := with_metrics _ _).
    destruct (resume_opportunities cfg e o eng1) as [-> ->].
    unfold eng1. cbn. by rewrite delete_insert_eq. }
  destruct H as [Hmap Hcount].
  split; [exact Hmap|]. split; [rewrite Hmap; apply lookup_delete_eq|].
  split.
  - intros Hnone. rewrite Hmap, Hcount, Hnone. split; [by apply delete_id|done].
  - intros [o' Hsome]. by rewrite Hcount, Hsome.
Qed.

(** X17. The clean-up of a cycle removes exactly the in-flight entries
    older than [opportunityTimeoutMs], the one of a settlement that is
    still awaited included.  An opportunity suspended in flight for longer
    than the timeout is evicted, and a new submission of the same id is
    then accepted as if it were new; within the timeout the entry stays
    and the new submission is refused. *)
Theorem expired_entry_is_resubmitted (cfg : Config) (o : Opportunity)
    (eng : ArbitrageEngine) (t : Z) :
  opportunities eng !! id o = None ->
  exists in_flight,
    processOpportunity_enter o eng = inr in_flight
    /\ opportunities in_flight !! id o = Some o
    /\ (opportunityTimeoutMs (trading cfg) < t - timestamp o ->
        opportunities (cleanupExpiredOpportunities cfg t in_flight) !! id o = None
        /\ exists again,
             processOpportunity_enter o (cleanupExpiredOpportunities cfg t in_flight)
             = inr again)
    /\ (t - timestamp o <= opportunityTimeoutMs (trading cfg) ->
        opportunities (cleanupExpiredOpportunities cfg t in_flight) !! id o = Some o
        /\ exists refused,
             processOpportunity_enter o (cleanupExpiredOpportunities cfg t in_flight)
             = inl refused)
    /\ (forall i o',
          opportunities (cleanupExpiredOpportunities cfg t in_flight) !! i = Some o'
          <-> opportunities in_flight !! i = Some o'
              /\ t - timestamp o' <= opportunityTimeoutMs (trading cfg)).
Proof.
  intros Hnone. unfold processOpportunity_enter at 1. rewrite Hnone.
  eexists. split; [reflexivity|].
  set (g := with_metrics _ _).
  assert (Hin : opportunities g !! id o = Some o).
  { unfold g. cbn. apply lookup_insert_eq. }
  assert (Hchar : forall i o',
            opportunities (cleanupExpiredOpportunities cfg t g) !! i = Some o'
            <-> opportunities g !! i = Some o'
                /\ t - timestamp o' <= opportunityTimeoutMs (trading cfg)).
  { intros i o'. unfold cleanupExpiredOpportunities.
    cbn [opportunities with_opportunities].
    rewrite map_lookup_filter_Some. cbn. split; intros [H1 H2]; (split; [done|lia]). }
  split; [exact Hin|]. split; [|split; [|exact Hchar]].
  - intros Hold.
    assert (Hgone : opportunities (cleanupExpiredOpportunities cfg t g) !! id o = None).
    { apply eq_None_not_Some. intros [o' Ho']. apply Hchar in Ho' as [Ho' Hle].
      rewrite Hin in Ho'. injection Ho' as <-. lia. }
    split; [exact Hgone|]. unfold processOpportunity_enter. rewrite Hgone.
    by eexists.
  - intros Hfresh.
    assert (Hkept : opportunities (cleanupExpiredOpportunities cfg t g) !! id o = Some o).
    { by apply Hchar. }
    split; [exact Hkept|]. unfold processOpportunity_enter. rewrite Hkept.
    by eexists.
Qed.

(** X17 on the detector's candidate of time 0, looked at after 20 and after
    40 seconds, under the configured timeout of 30 seconds. *)
Lemma expired_entry_is_resubmitted_witness :
  let eng := ArbitrageEngine_new {| now := 0; toDateString := "Mon Jan 01 2024" |} in
  exists in_flight,
    processOpportunity_enter weth_usdc_opportunity eng = inr in_flight
    /\ opportunities (cleanupExpiredOpportunities config 40000 in_flight)
       !! id weth_usdc_opportunity = None
    /\ opportunities (cleanupExpiredOpportunities config 20000 in_flight)
       !! id weth_usdc_opportunity = Some weth_usdc_opportunity.
Proof.
  intros eng.
  destruct (expired_entry_is_resubmitted config weth_usdc_opportunity eng 40000)
    as (g & H1 & _ & Hold & _ & _); [reflexivity|].
  destruct (expired_entry_is_resubmitted config weth_usdc_opportunity eng 20000)
    as (g' & H1' & _ & _ & Hfresh & _); [reflexivity|].
  rewrite H1 in H1'. injection H1' as <-.
  exists g. split; [exact H1|]. split.
  - apply Hold. cbn. lia.
  - apply Hfresh. cbn. lia.
Defined.

Section CycleFacts.

Variable cfg : Config.

Lemma executeArbitrage_dailyLoss s tfail o eng :
  dailyLoss (riskManager (executeArbitrage cfg s tfail o eng))
  = dailyLoss (riskManager eng).
Proof.
  destruct s; cbn; try done; by destruct (recordFailure_dailyLoss cfg tfail (riskManager eng)).
Qed.

Lemma resume_dailyLoss e o eng :
  dailyLoss (riskManager (processOpportunity_resume cfg e o eng))
  = dailyLoss (riskManager eng).
Proof.
  unfold processOpportunity_resume.
  destruct (calculateNetProfit cfg (env_feeds e) (profitCalculator eng) o)
    as [[r|msg] pc]; [|done].
  destruct (negb (validateOpportunity cfg _)); [done|].
  destruct (profitable r); [|done].
  cbn [riskManager with_opportunities]. by rewrite executeArbitrage_dailyLoss.
Qed.

Lemma process_dailyLoss e o eng :
  dailyLoss (riskManager (processOpportunity cfg e o eng))
  = dailyLoss (riskManager eng).
Proof.
  unfold processOpportunity, processOpportunity_enter.
  destruct (opportunities eng !! id o); [done|].
  by rewrite resume_dailyLoss.
Qed.

Lemma process_all_dailyLoss (env : Opportunity -> ProcessEnv) found : forall eng,
  dailyLoss (riskManager
               (fold_left (fun g o => processOpportunity cfg (env o) o g) found eng))
  = dailyLoss (riskManager eng).
Proof.
  induction found as [|o found IH]; intros eng; cbn [fold_left]; [done|].
  by rewrite IH, process_dailyLoss.
Qed.

Lemma canTrade_dailyLoss c rm :
  dailyLoss (canTrade cfg c rm).2 = dailyLoss rm
  \/ dailyLoss (canTrade cfg c rm).2 = of_Z 0.
Proof.
  unfold canTrade. destruct (tradingPaused rm); [by left|].
  destruct (circuitBreakerOpen rm).
  - destruct (_ <? _); [by left|]. cbn [dailyLoss lastResetDate].
    destruct (_ >=? _)%num; [by left|]. destruct (negb _); [by right|by left].
  - destruct (_ >=? _)%num; [by left|]. destruct (negb _); [by right|by left].
Qed.

End CycleFacts.

(** X18. A cycle that the risk gate refuses does nothing: when [canTrade]
    answers [false] the monitoring loop returns before any price is
    looked at, so no opportunity is counted, recorded or submitted and the
    in-flight map is untouched; only the risk state may have moved, to the
    state [canTrade] leaves.  When trading is paused the engine is left
    exactly as it was. *)
Theorem refused_cycle_does_nothing (cfg : Config) (c : Clock)
    (allPrices : AllPrices) (env : Opportunity -> ProcessEnv)
    (eng : ArbitrageEngine) :
  (canTrade cfg c (riskManager eng)).1 = false ->
  let eng' := monitoringLoop cfg c allPrices env eng in
  eng' = with_riskManager (canTrade cfg c (riskManager eng)).2 eng
  /\ effects eng' = effects eng
  /\ metrics eng' = metrics eng
  /\ opportunities eng' = opportunities eng
  /\ (tradingPaused (riskManager eng) = true -> eng' = eng).
Proof.
  intros Hno. cbv zeta. unfold monitoringLoop.
  destruct (canTrade cfg c (riskManager eng)) as [ok rm] eqn:E.
  cbn [fst snd] in *. subst ok. cbn [negb].
  repeat split. intros Hp. unfold canTrade in E. rewrite Hp in E.
  injection E as <-. by destruct eng.
Qed.

(** X18 on a paused engine with a profitable spread on offer. *)
Lemma refused_cycle_does_nothing_witness :
  let c := {| now := 0; toDateString := "Mon Jan 01 2024" |} in
  let eng := engine_call config (ArbitrageEngine_new c) (Risk PauseTrading) in
  monitoringLoop config c (two_venues (of_Z 2000) (of_Z 2100))
    (fun _ => settled_env) eng = eng.
Proof.
  intros c eng.
  destruct (refused_cycle_does_nothing config c
              (two_venues (of_Z 2000) (of_Z 2100)) (fun _ => settled_env) eng)
    as (_ & _ & _ & _ & H); [reflexivity|].
  apply H. reflexivity.
Defined.

(** X19. The dispatcher never adds to the daily loss.  Processing an
    opportunity, executing a settlement (confirmed or failed) and cleaning
    up leave [dailyLoss] as it is, and a whole monitoring cycle leaves it
    as it is or, on the first accepted check of a new day, at zero: the
    loss tested against the cap is the one loaded by [initialize] and
    nothing else. *)
Theorem dispatcher_never_records_a_loss (cfg : Config) (eng : ArbitrageEngine) :
  (forall e o,
     dailyLoss (riskManager (processOpportunity cfg e o eng))
     = dailyLoss (riskManager eng))
  /\ (forall e o,
        dailyLoss (riskManager (processOpportunity_resume cfg e o eng))
        = dailyLoss (riskManager eng))
  /\ (forall s tfail o,
        dailyLoss (riskManager (executeArbitrage cfg s tfail o eng))
        = dailyLoss (riskManager eng))
  /\ (forall t,
        riskManager (cleanupExpiredOpportunities cfg t eng) = riskManager eng)
  /\ (forall c allPrices env,
        dailyLoss (riskManager (monitoringLoop cfg c allPrices env eng))
        = dailyLoss (riskManager eng)
        \/ dailyLoss (riskManager (monitoringLoop cfg c allPrices env eng))
           = of_Z 0).
Proof.
  split; [intros; apply process_dailyLoss|].
  split; [intros; apply resume_dailyLoss|].
  split; [intros; apply executeArbitrage_dailyLoss|].
  split; [done|].
  intros c allPrices env. unfold monitoringLoop.
  pose proof (canTrade_dailyLoss cfg c (riskManager eng)) as H.
  destruct (canTrade cfg c (riskManager eng)) as [ok rm]. cbn [snd] in H.
  destruct (negb ok); [exact H|].
  cbn [riskManager cleanupExpiredOpportunities with_opportunities].
  by rewrite process_all_dailyLoss.
Qed.

(** ** Metrics *)

Section MeanFacts.

Variable cfg : Config.

Lemma inject_Z_pos_nonzero (k : Z) : 0 < k -> ~ (inject_Z k == 0)%Q.
Proof. intros Hk. unfold Qeq. cbn. lia. Qed.

Lemma mean_step h p t tfail o eng (k S : Z) (a : Q) :
  tradesExecuted (metrics eng) = k -> 0 <= k ->
  averageExecutionTime (metrics eng) = Fin a ->
  (a * inject_Z k == inject_Z S)%Q ->
  exists a' : Q,
    averageExecutionTime
      (metrics (executeArbitrage cfg (Confirmed h p t) tfail o eng)) = Fin a'
    /\ tradesExecuted
         (metrics (executeArbitrage cfg (Confirmed h p t) tfail o eng)) = k + 1
    /\ (a' * inject_Z (k + 1) == inject_Z (S + t))%Q.
Proof.
  intros Hk Hnn Havg Hmean.
  assert (Hnz : ~ (inject_Z (k + 1) == 0)%Q) by (apply inject_Z_pos_nonzero; lia).
  cbn [executeArbitrage metrics with_effect with_metrics metrics_after_success
       averageExecutionTime tradesExecuted].
  rewrite Havg, Hk. replace (k + 1 - 1) with k by lia.
  cbn [of_Z mul add div]. rewrite (Qis0_false _ Hnz).
  eexists. split; [reflexivity|]. split; [reflexivity|].
  rewrite !inject_Z_plus, <- Hmean. field.
  intros E. apply Hnz. by rewrite inject_Z_plus.
Qed.

Lemma mean_run xs : forall eng (k S : Z) (a : Q),
  tradesExecuted (metrics eng) = k -> 0 <= k ->
  averageExecutionTime (metrics eng) = Fin a ->
  (a * inject_Z k == inject_Z S)%Q ->
  exists a' : Q,
    averageExecutionTime (metrics (execute_all cfg xs eng)) = Fin a'
    /\ tradesExecuted (metrics (execute_all cfg xs eng))
       = k + Z.of_nat (length (confirmed_times xs))
    /\ (a' * inject_Z (k + Z.of_nat (length (confirmed_times xs)))
        == inject_Z (S + sum_Z (confirmed_times xs)))%Q.
Proof.
  induction xs as [|[[s tfail] o] xs IH]; intros eng k S a Hk Hnn Havg Hmean.
  - exists a. cbn. rewrite !Z.add_0_r. done.
  - cbn [execute_all fold_left fst snd].
    fold (execute_all cfg xs (executeArbitrage cfg s tfail o eng)).
    change (confirmed_times ((s, tfail, o) :: xs))
      with (match confirmed_time (s, tfail, o) with
            | Some y => y :: confirmed_times xs
            | None => confirmed_times xs
            end).
    destruct s as [err|h err|h p t].
    + change (confirmed_time (SubmitRejected err, tfail, o)) with (@None Z).
      apply (IH _ k S a); done.
    + change (confirmed_time (ConfirmFailed h err, tfail, o)) with (@None Z).
      apply (IH _ k S a); done.
    + change (confirmed_time (Confirmed h p t, tfail, o)) with (Some t).
      destruct (mean_step h p t tfail o eng k S a Hk Hnn Havg Hmean)
        as (a1 & H1 & H2 & H3).
      destruct (IH _ (k + 1) (S + t) a1 H2 ltac:(lia) H1 H3) as (a' & G1 & G2 & G3).
      exists a'. split; [exact G1|]. cbn [length sum_Z fold_right].
      fold (sum_Z (confirmed_times xs)).
      replace (k + Z.of_nat (Datatypes.S (length (confirmed_times xs))))
        with (k + 1 + Z.of_nat (length (confirmed_times xs))) by lia.
      replace (S + (t + sum_Z (confirmed_times xs)))
        with (S + t + sum_Z (confirmed_times xs)) by lia.
      done.
Qed.

End MeanFacts.

(** X20. [averageExecutionTime] is the mean of the execution times of the
    confirmed settlements: after any run of executions on a new engine,
    failed ones included, [tradesExecuted] is the number of confirmed
    settlements and the average times that number is the sum of their
    execution times. *)
Theorem average_execution_time_is_the_mean (cfg : Config) (c : Clock)
    (xs : list (Settlement * Z * EnhancedOpportunity)) :
  let eng := execute_all cfg xs (ArbitrageEngine_new c) in
  let times := confirmed_times xs in
  tradesExecuted (metrics eng) = Z.of_nat (length times)
  /\ exists a : Q,
       averageExecutionTime (metrics eng) = Fin a
       /\ (a * inject_Z (Z.of_nat (length times)) == inject_Z (sum_Z times))%Q.
Proof.
  cbv zeta.
  destruct (mean_run cfg xs (ArbitrageEngine_new c) 0 0 0)
    as (a & H1 & H2 & H3); try done.
  split; [by rewrite H2|]. exists a. split; [exact H1|].
  by rewrite !Z.add_0_l in H3.
Qed.

(** ** Detector *)

Section DirectionFacts.

Variable cfg : Config.

(** The threshold without the division. *)
Lemma threshold_as_product (b s : Q) :
  (0 < b)%Q ->
  (5 # 1000 <= (s - b) / b)%Q <-> (b * (1005 # 1000) <= s)%Q.
Proof.
  intros Hb. split; intros H.
  - assert (E : ((s - b) / b * b == s - b)%Q).
    { field. intros E. rewrite E in Hb. by apply Qlt_irrefl in Hb. }
    assert (M : ((5 # 1000) * b <= (s - b) / b * b)%Q).
    { apply Qmult_le_compat_r; [done|]. by apply Qlt_le_weak. }
    rewrite E in M. lra.
  - apply Qle_shift_div_l; [done|]. lra.
Qed.

Lemma createOpportunity_more t pair d1 d2 buy sell o :
  createOpportunity cfg t pair d1 d2 buy sell = Some o ->
  timestamp o = t
  /\ priceDifference o = (sell - buy)%num
  /\ id o = pair +:+ "_" +:+ d1 +:+ "_" +:+ d2 +:+ "_" +:+ pretty t.
Proof.
  unfold createOpportunity. destruct (_ <? _)%num; [done|].
  by intros [= <-].
Qed.

Lemma length_option_list {A} (x : option A) : (length (option_list x) <= 1)%nat.
Proof. destruct x; cbn; lia. Qed.

Lemma length_compare_venues t pair d1 d2 :
  (length (compare_venues cfg t pair d1 d2) <= 2)%nat.
Proof.
  unfold compare_venues.
  destruct (d1.2 !! pair) as [q1|]; [|cbn; lia].
  destruct (d2.2 !! pair) as [q2|]; [|cbn; lia].
  rewrite length_app.
  pose proof (length_option_list
                (createOpportunity cfg t pair d1.1 d2.1 (price q1) (price q2))).
  pose proof (length_option_list
                (createOpportunity cfg t pair d2.1 d1.1 (price q2) (price q1))).
  lia.
Qed.

Lemma length_flat_compare t pair d rest :
  (length (flat_map (compare_venues cfg t pair d) rest) <= 2 * length rest)%nat.
Proof.
  induction rest as [|d2 rest IH]; [cbn; lia|].
  cbn [flat_map length]. rewrite length_app.
  pose proof (length_compare_venues t pair d d2). lia.
Qed.

Lemma length_venue_pairs t pair ds :
  (length (venue_pairs cfg t pair ds) <= length ds * (length ds - 1))%nat.
Proof.
  induction ds as [|d rest IH]; [cbn; lia|].
  cbn [venue_pairs length]. rewrite length_app.
  pose proof (length_flat_compare t pair d rest).
  replace (S (length rest) - 1)%nat with (length rest) by lia.
  destruct (length rest) as [|n]; [lia|].
  replace (S n - 1)%nat with n in IH by lia. nia.
Qed.

End DirectionFacts.

(** X21. With positive prices on both venues the detector never emits
    both directions of a venue pair: a direction is emitted only when the
    sell price is at least 1.005 times the buy price, so every candidate
    buys strictly below its sell price, and a pair of venues contributes
    at most one candidate per token pair. *)
Theorem detector_buys_low_sells_high (cfg : Config) (t : Z) (pair : string)
    (d1 d2 : string * gmap string Quote) (q1 q2 : Quote) (p1 p2 : Q) :
  d1.2 !! pair = Some q1 -> d2.2 !! pair = Some q2 ->
  price q1 = Fin p1 -> price q2 = Fin p2 ->
  (0 < p1)%Q -> (0 < p2)%Q ->
  (length (compare_venues cfg t pair d1 d2) <= 1)%nat
  /\ (forall o, In o (compare_venues cfg t pair d1 d2) ->
        exists b s : Q,
          buyPrice o = Fin b /\ sellPrice o = Fin s
          /\ (b * (1005 # 1000) <= s)%Q /\ (b < s)%Q)
  /\ (is_Some (createOpportunity cfg t pair d1.1 d2.1 (Fin p1) (Fin p2)) ->
      createOpportunity cfg t pair d2.1 d1.1 (Fin p2) (Fin p1) = None).
Proof.
  intros H1 H2 Hq1 Hq2 Hp1 Hp2.
  assert (Hn1 : ~ (p1 == 0)%Q) by (intros E; rewrite E in Hp1; by apply Qlt_irrefl in Hp1).
  assert (Hn2 : ~ (p2 == 0)%Q) by (intros E; rewrite E in Hp2; by apply Qlt_irrefl in Hp2).
  pose proof (createOpportunity_threshold cfg t pair d1.1 d2.1 p1 p2 Hn1) as T12.
  pose proof (createOpportunity_threshold cfg t pair d2.1 d1.1 p2 p1 Hn2) as T21.
  rewrite threshold_as_product in T12 by done.
  rewrite threshold_as_product in T21 by done.
  assert (Hexcl : is_Some (createOpportunity cfg t pair d1.1 d2.1 (Fin p1) (Fin p2)) ->
                  createOpportunity cfg t pair d2.1 d1.1 (Fin p2) (Fin p1) = None).
  { intros Hs. apply T12 in Hs. apply eq_None_not_Some. intros Hs'.
    apply T21 in Hs'. lra. }
  split; [|split; [|exact Hexcl]].
  - unfold compare_venues. rewrite H1, H2, Hq1, Hq2.
    destruct (createOpportunity cfg t pair d1.1 d2.1 (Fin p1) (Fin p2)) as [o1|] eqn:E1.
    + rewrite Hexcl by done. cbn. lia.
    + cbn. apply length_option_list.
  - intros o Hin. apply in_compare_venues in Hin.
    destruct Hin as (q1' & q2' & L1 & L2 & Hc).
    rewrite H1 in L1. rewrite H2 in L2. injection L1 as <-. injection L2 as <-.
    rewrite Hq1, Hq2 in Hc. destruct Hc as [Hc|Hc].
    + pose proof (createOpportunity_Some _ _ _ _ _ _ _ _ Hc) as (_ & _ & _ & _ & Hb & Hs & _).
      exists p1, p2. assert (Hsome : is_Some (createOpportunity cfg t pair d1.1 d2.1 (Fin p1) (Fin p2))) by (by eexists).
      apply T12 in Hsome. repeat split; [done|done|done|lra].
    + pose proof (createOpportunity_Some _ _ _ _ _ _ _ _ Hc) as (_ & _ & _ & _ & Hb & Hs & _).
      exists p2, p1. assert (Hsome : is_Some (createOpportunity cfg t pair d2.1 d1.1 (Fin p2) (Fin p1))) by (by eexists).
      apply T21 in Hsome. repeat split; [done|done|done|lra].
Qed.

(** X21 on 2000 against 2100. *)
Lemma detector_buys_low_sells_high_witness :
  let d1 := ("uniswap"%string,
             ({[ "WETH/USDC"%string := {| price := Fin 2000; observedAt := 0 |} ]}
              : gmap string Quote)) in
  let d2 := ("sushiswap"%string,
             ({[ "WETH/USDC"%string := {| price := Fin 2100; observedAt := 0 |} ]}
              : gmap string Quote)) in
  (length (compare_venues config 0 "WETH/USDC" d1 d2) <= 1)%nat
  /\ createOpportunity config 0 "WETH/USDC" "sushiswap" "uniswap"
       (Fin 2100) (Fin 2000) = None.
Proof.
  intros d1 d2.
  destruct (detector_buys_low_sells_high config 0 "WETH/USDC" d1 d2
              {| price := Fin 2000; observedAt := 0 |}
              {| price := Fin 2100; observedAt := 0 |} 2000 2100)
    as (Hlen & _ & Hexcl); try reflexivity.
  split; [exact Hlen|]. apply Hexcl. by eexists.
Defined.

(** X22. The detector returns at most two candidates per token pair and
    unordered pair of venues, hence at most [p * n * (n - 1)] for [p]
    pairs and [n] venues; with no monitored pair, or with fewer than two
    venues in the snapshot, it returns nothing. *)
Theorem detector_output_is_bounded (cfg : Config) (t : Z)
    (pairs : list string) (allPrices : AllPrices) :
  (length (findArbitrageOpportunities cfg t pairs allPrices)
   <= length pairs * (length allPrices * (length allPrices - 1)))%nat
  /\ findArbitrageOpportunities cfg t [] allPrices = []
  /\ ((length allPrices <= 1)%nat ->
      findArbitrageOpportunities cfg t pairs allPrices = []).
Proof.
  assert (B : (length (findArbitrageOpportunities cfg t pairs allPrices)
               <= length pairs * (length allPrices * (length allPrices - 1)))%nat).
  { unfold findArbitrageOpportunities.
    induction pairs as [|pair pairs IH]; [cbn; lia|].
    cbn [flat_map length]. rewrite length_app.
    pose proof (length_venue_pairs cfg t pair allPrices). lia. }
  split; [exact B|]. split; [done|].
  intros Hn. apply length_zero_iff_nil.
  assert (Z0 : (length allPrices * (length allPrices - 1) = 0)%nat).
  { destruct allPrices as [|d [|d' l]]; cbn in *; lia. }
  rewrite Z0 in B. lia.
Qed.

(** X23. Every candidate the detector returns is made of the snapshot it
    was given: its token pair is a monitored pair, its two venues are
    venues of the snapshot that both quote the pair, its buy and sell
    prices are the prices of those two quotes, its price difference is
    their difference, its timestamp is the time of the search and its id
    is the pair, the two venue names and that time joined by
    underscores. *)
Theorem detector_output_provenance (cfg : Config) (t : Z)
    (pairs : list string) (allPrices : AllPrices) (o : Opportunity) :
  In o (findArbitrageOpportunities cfg t pairs allPrices) ->
  In (tokenPair o) pairs
  /\ timestamp o = t
  /\ priceDifference o = (sellPrice o - buyPrice o)%num
  /\ id o = tokenPair o +:+ "_" +:+ buyDEX o +:+ "_" +:+ sellDEX o +:+ "_"
            +:+ pretty t
  /\ amount o = calculateOptimalAmount cfg (tokenPair o) (buyPrice o) (sellPrice o)
  /\ exists dbuy dsell qbuy qsell,
       In dbuy allPrices /\ In dsell allPrices
       /\ buyDEX o = dbuy.1 /\ sellDEX o = dsell.1
       /\ dbuy.2 !! tokenPair o = Some qbuy
       /\ dsell.2 !! tokenPair o = Some qsell
       /\ buyPrice o = price qbuy /\ sellPrice o = price qsell.
Proof.
  intros Hin. apply in_findArbitrageOpportunities in Hin.
  destruct Hin as (pair & dbuy & dsell & qbuy & qsell & Hp & Hb & Hs & Lb & Ls & Hc).
  pose proof (createOpportunity_Some _ _ _ _ _ _ _ _ Hc)
    as (_ & Hpair & Hbd & Hsd & Hbp & Hsp & Ham & _).
  pose proof (createOpportunity_more _ _ _ _ _ _ _ _ Hc) as (Ht & Hd & Hid).
  rewrite Hpair, Hbd, Hsd, Hbp, Hsp.
  repeat split; try done.
  exists dbuy, dsell, qbuy, qsell. repeat split; done.
Qed.

(** X23 on a snapshot of two venues. *)
Lemma detector_output_provenance_witness :
  exists o,
    In o (findArbitrageOpportunities config 7 ["WETH/USDC"%string]
            (two_venues (of_Z 2000) (of_Z 2100)))
    /\ timestamp o = 7
    /\ id o = "WETH/USDC_uniswap_sushiswap_7"%string.
Proof.
  eexists. split; [left; reflexivity|].
  match goal with
  | |- timestamp ?o = _ /\ _ =>
      destruct (detector_output_provenance config 7 ["WETH/USDC"%string]
                  (two_venues (of_Z 2000) (of_Z 2100)) o)
        as (_ & Ht & _ & Hid & _); [left; reflexivity|]
  end.
  split; [exact Ht|]. rewrite Hid. reflexivity.
Defined.

(** X24. In the pipeline the estimator never throws: when every venue of
    the snapshot is a venue of [config.dexes], every candidate the
    detector returns gets a profit analysis from [calculateNetProfit],
    whatever the feeds answer. *)
Theorem estimator_total_on_detector_output (cfg : Config) (t : Z)
    (pairs : list string) (allPrices : AllPrices) (o : Opportunity)
    (f : CostFeeds) (pc : ProfitCalculator) :
  (forall d, In d allPrices -> is_Some (dexes cfg !! d.1)) ->
  In o (findArbitrageOpportunities cfg t pairs allPrices) ->
  exists r : ProfitAnalysis, (calculateNetProfit cfg f pc o).1 = Ok r.
Proof.
  intros Hcfg Hin. apply in_findArbitrageOpportunities in Hin.
  destruct Hin as (pair & dbuy & dsell & qbuy & qsell & _ & Hb & Hs & _ & _ & Hc).
  pose proof (createOpportunity_Some _ _ _ _ _ _ _ _ Hc)
    as (_ & _ & Hbd & Hsd & _).
  destruct (Hcfg dbuy Hb) as [bd Eb]. destruct (Hcfg dsell Hs) as [sd Es].
  unfold calculateNetProfit. rewrite Hbd, Hsd, Eb, Es. by eexists.
Qed.

(** X24 on uniswap and sushiswap, every feed down. *)
Lemma estimator_total_on_detector_output_witness :
  let f := {| feed_now := 0; feed_feeData := None; feed_ethPrice := None;
              feed_fetcher := false; feed_pair := fun _ _ => None |} in
  exists r : ProfitAnalysis,
    (calculateNetProfit config f ProfitCalculator_new weth_usdc_opportunity).1
    = Ok r.
Proof.
  intros f.
  apply (estimator_total_on_detector_output config 0 ["WETH/USDC"%string]
           (two_venues (of_Z 2000) (of_Z 2100))).
  - intros d [<-|[<-|[]]]; by eexists.
  - left. reflexivity.
Defined.

(** ** Cycles *)

Section CycleMapFacts.

Variable cfg : Config.

Lemma process_opportunities e o eng :
  opportunities (processOpportunity cfg e o eng)
  = delete (id o) (opportunities eng).
Proof.
  unfold processOpportunity, processOpportunity_enter.
  destruct (opportunities eng !! id o) eqn:Hin; [done|].
  set (eng1 := with_metrics _ _).
  destruct (resume_opportunities cfg e o eng1) as [-> _].
  unfold eng1. cbn. by rewrite delete_insert_eq.
Qed.

Lemma process_all_opportunities (env : Opportunity -> ProcessEnv) found :
  forall eng i o',
    opportunities
      (fold_left (fun g o => processOpportunity cfg (env o) o g) found eng) !! i
    = Some o' ->
    opportunities eng !! i = Some o' /\ ~ In i (map id found).
Proof.
  induction found as [|o found IH]; intros eng i o' H; cbn [fold_left] in H.
  - split; [done|]. by intros [].
  - apply IH in H as [H Hnot]. rewrite process_opportunities in H.
    apply lookup_delete_Some in H as [Hne H].
    split; [done|]. cbn [map]. intros [E|E]; [by destruct Hne|by destruct Hnot].
Qed.

(** The risk state after a run of executions none of which is confirmed
    is the one left by recording their failures in order. *)
Lemma execute_all_failed_risk xs : forall eng,
  Forall (fun x => confirmed_time x = None) xs ->
  riskManager (execute_all cfg xs eng)
  = recordFailures cfg (map (fun x => x.1.2) xs) (riskManager eng).
Proof.
  induction xs as [|[[s tfail] o] xs IH]; intros eng Hall; [done|].
  apply Forall_cons in Hall as [Hx Hall].
  cbn [execute_all fold_left map recordFailures fst snd].
  fold (execute_all cfg xs (executeArbitrage cfg s tfail o eng)).
  fold (recordFailures cfg (map (fun x => x.1.2) xs)
          (recordFailure cfg tfail (riskManager eng))).
  rewrite IH by done. f_equal.
  destruct s as [err|h err|h p t]; [done|done|].
  by unfold confirmed_time in Hx.
Qed.

Lemma execute_all_failed_metrics xs : forall eng,
  Forall (fun x => confirmed_time x = None) xs ->
  metrics (execute_all cfg xs eng) = metrics eng.
Proof.
  induction xs as [|[[s tfail] o] xs IH]; intros eng Hall; [done|].
  apply Forall_cons in Hall as [Hx Hall].
  cbn [execute_all fold_left fst snd].
  fold (execute_all cfg xs (executeArbitrage cfg s tfail o eng)).
  rewrite IH by done.
  destruct s as [err|h err|h p t]; [done|done|].
  by unfold confirmed_time in Hx.
Qed.

End CycleMapFacts.

(** X25. A monitoring cycle leaves nothing of its own in flight: every
    entry of the in-flight map after the cycle was there before it, is not
    one of the ids the cycle found, and, when the cycle was accepted by the
    risk gate, is not older than the opportunity timeout.  A cycle that
    starts with an empty map ends with an empty map. *)
Theorem cycle_leaves_nothing_in_flight (cfg : Config) (c : Clock)
    (allPrices : AllPrices) (env : Opportunity -> ProcessEnv)
    (eng : ArbitrageEngine) :
  let eng' := monitoringLoop cfg c allPrices env eng in
  (forall i o',
     opportunities eng' !! i = Some o' ->
     opportunities eng !! i = Some o'
     /\ ((canTrade cfg c (riskManager eng)).1 = true ->
         now c - timestamp o' <= opportunityTimeoutMs (trading cfg)
         /\ ~ In i (map id (findArbitrageOpportunities cfg (now c)
                              (tokenPairs eng) allPrices))))
  /\ (opportunities eng = ∅ -> opportunities eng' = ∅).
Proof.
  cbv zeta.
  assert (H : forall i o',
     opportunities (monitoringLoop cfg c allPrices env eng) !! i = Some o' ->
     opportunities eng !! i = Some o'
     /\ ((canTrade cfg c (riskManager eng)).1 = true ->
         now c - timestamp o' <= opportunityTimeoutMs (trading cfg)
         /\ ~ In i (map id (findArbitrageOpportunities cfg (now c)
                              (tokenPairs eng) allPrices)))).
  { intros i o'. unfold monitoringLoop.
    destruct (canTrade cfg c (riskManager eng)) as [ok rm]. cbn [fst].
    destruct ok; cbn [negb].
    - unfold cleanupExpiredOpportunities. cbn [opportunities with_opportunities].
      rewrite map_lookup_filter_Some. cbn. intros [Hl Hfresh].
      apply process_all_opportunities in Hl as [Hl Hnot].
      split; [done|]. intros _. split; [lia|done].
    - cbn. intros Hl. split; [done|]. done. }
  split; [exact H|].
  intros Hempty. apply map_empty. intros i.
  apply eq_None_not_Some. intros [o' Ho']. apply H in Ho' as [Ho' _].
  rewrite Hempty in Ho'. by rewrite lookup_empty in Ho'.
Qed.

(** X26. Failed settlements halt the pipeline: after a run of executions
    that all fail, at least [maxConsecutiveFailures] of them, the breaker
    is open since the last failure, and until its timeout has elapsed a
    monitoring cycle leaves the engine exactly as it is: no price is
    compared, nothing is recorded, nothing is submitted. *)
Theorem failed_settlements_halt_cycles (cfg : Config) (c : Clock)
    (xs : list (Settlement * Z * EnhancedOpportunity))
    (x : Settlement * Z * EnhancedOpportunity) :
  Forall (fun x => confirmed_time x = None) (xs ++ [x]) ->
  maxConsecutiveFailures (risk cfg) <= Z.of_nat (length (xs ++ [x])) ->
  let eng := execute_all cfg (xs ++ [x]) (ArbitrageEngine_new c) in
  circuitBreakerOpen (riskManager eng) = true
  /\ circuitBreakerOpenTime (riskManager eng) = x.1.2
  /\ successfulTrades (metrics eng) = 0
  /\ forall c' allPrices env,
       now c' - x.1.2 < circuitBreakerTimeoutMs (risk cfg) ->
       monitoringLoop cfg c' allPrices env eng = eng.
Proof.
  intros Hall Hlen eng.
  assert (Hrisk : riskManager eng
                  = recordFailures cfg (map (fun x => x.1.2) (xs ++ [x]))
                      (RiskManager_new c)).
  { unfold eng. by rewrite execute_all_failed_risk. }
  assert (Hopen : circuitBreakerOpen (riskManager eng) = true
                  /\ circuitBreakerOpenTime (riskManager eng) = x.1.2).
  { rewrite Hrisk, map_app, recordFailures_app. cbn [map recordFailures fold_left].
    apply recordFailure_trips.
    fold (recordFailures cfg (map (fun x => x.1.2) xs) (RiskManager_new c)).
    rewrite recordFailures_counter, length_map. cbn [consecutiveFailures RiskManager_new].
    rewrite length_app in Hlen. cbn [length] in Hlen. lia. }
  destruct Hopen as [Hopen Htime].
  split; [exact Hopen|]. split; [exact Htime|]. split.
  - unfold eng. by rewrite execute_all_failed_metrics.
  - intros c' allPrices env Hc'. unfold monitoringLoop.
    rewrite (canTrade_open_early cfg c' (riskManager eng) Hopen)
      by (by rewrite Htime).
    cbn [negb]. by destruct eng.
Qed.

(** X26 on five failed settlements at times 1 .. 5 under the configured
    threshold of 5 and timeout of 300 seconds. *)
Lemma failed_settlements_halt_cycles_witness :
  let c := {| now := 0; toDateString := "Mon Jan 01 2024" |} in
  let o := mock_opportunity "WETH/USDC" in
  let fail t := (ConfirmFailed "0x123" "Transaction failed", t, o) in
  let eng := execute_all config [fail 1; fail 2; fail 3; fail 4; fail 5]
               (ArbitrageEngine_new c) in
  circuitBreakerOpen (riskManager eng) = true
  /\ monitoringLoop config {| now := 200000; toDateString := "Mon Jan 01 2024" |}
       (two_venues (of_Z 2000) (of_Z 2100)) (fun _ => settled_env) eng = eng.
Proof.
  intros c o fail eng.
  destruct (failed_settlements_halt_cycles config c
              [fail 1; fail 2; fail 3; fail 4] (fail 5))
    as (Hopen & _ & _ & Hhalt).
  - repeat constructor.
  - cbn. lia.
  - split; [exact Hopen|]. apply Hhalt. cbn. lia.
Defined.

(** ** Breakdown *)

(** X27. The breakdown returned with an estimate is consistent with the
    totals: for configured venues the platform fees are the sum of the buy
    fee and the sell fee reported in the breakdown, the two amounts are
    the notional of each leg, and, on finite prices and amount, the gross
    profit is the sell amount less the buy amount. *)
Theorem breakdown_is_consistent (cfg : Config) (f : CostFeeds)
    (pc : ProfitCalculator) (o : Opportunity) (b s a : Q) :
  is_Some (dexes cfg !! buyDEX o) ->
  is_Some (dexes cfg !! sellDEX o) ->
  buyPrice o = Fin b -> sellPrice o = Fin s -> amount o = Fin a ->
  exists r : ProfitAnalysis,
    (calculateNetProfit cfg f pc o).1 = Ok r
    /\ platformFees r = (buyFee r + sellFee r)%num
    /\ buyAmount r = Fin (b * a)
    /\ sellAmount r = Fin (s * a)
    /\ (grossProfit r == sellAmount r - buyAmount r)%num.
Proof.
  intros [bd Hb] [sd Hs] Hbuy Hsell Hamt.
  unfold calculateNetProfit, calculatePlatformFees. rewrite Hb, Hs.
  eexists. split; [reflexivity|].
  cbn [platformFees buyFee sellFee buyAmount sellAmount grossProfit].
  rewrite Hbuy, Hsell, Hamt. cbn [mul sub add neg eqv].
  repeat split. ring.
Qed.

(** X27 on scenario A: 2000 against 2010, amount 1. *)
Lemma breakdown_is_consistent_witness :
  let o := opp (mock_opportunity "WETH/USDC") in
  let f := {| feed_now := 0; feed_feeData := None; feed_ethPrice := None;
              feed_fetcher := true; feed_pair := fun _ _ => None |} in
  exists r : ProfitAnalysis,
    (calculateNetProfit config f ProfitCalculator_new o).1 = Ok r
    /\ platformFees r = (buyFee r + sellFee r)%num
    /\ (grossProfit r == of_Z 10)%num.
Proof.
  intros o f.
  destruct (breakdown_is_consistent config f ProfitCalculator_new o 2000 2010 1)
    as (r & H1 & H2 & H3 & H4 & H5).
  - by eexists.
  - by eexists.
  - reflexivity.
  - reflexivity.
  - reflexivity.
  - exists r. split; [exact H1|]. split; [exact H2|].
    rewrite H3, H4 in H5. destruct (grossProfit r) as [g| | |]; done.
Defined.

(** X28. A profitable estimate has a positive margin: with a positive
    [minProfitUSD] and a positive finite notional, [profitable] implies a
    positive net profit and a positive [profitMargin]; and when the net
    profit is not positive the margin is reported as 0, never as a
    negative number. *)
Theorem profitable_has_positive_margin (cfg : Config) (f : CostFeeds)
    (pc : ProfitCalculator) (o : Opportunity) (m b a : Q) :
  is_Some (dexes cfg !! buyDEX o) ->
  is_Some (dexes cfg !! sellDEX o) ->
  minProfitUSD (trading cfg) = Fin m -> (0 < m)%Q ->
  buyPrice o = Fin b -> amount o = Fin a -> (0 < b * a)%Q ->
  exists r : ProfitAnalysis,
    (calculateNetProfit cfg f pc o).1 = Ok r
    /\ (profitable r = true ->
        (netProfit r >? of_Z 0)%num = true
        /\ (profitMargin r >? of_Z 0)%num = true)
    /\ ((netProfit r >? of_Z 0)%num = false -> profitMargin r = of_Z 0)
    /\ (profitMargin r <? of_Z 0)%num = false.
Proof.
  intros [bd Hb] [sd Hs] Hm Hmpos Hbuy Hamt Hn.
  unfold calculateNetProfit. rewrite Hb, Hs.
  eexists. split; [reflexivity|].
  cbn [profitable netProfit profitMargin]. rewrite Hm.
  set (net := (_ - _ - _ - _)%num). clearbody net.
  rewrite Hbuy, Hamt. cbn [mul].
  assert (Hnz : Qis0 (b * a) = false) by (by apply Qis0_pos).
  assert (Hneg : Qltb (b * a) 0 = false).
  { apply Qltb_false. by apply Qlt_le_weak. }
  destruct net as [n| | |].
  - cbn [gtb ltb geb leb of_Z div mul]. rewrite Hnz. cbn [mul ltb].
    destruct (Qltb (inject_Z 0) n) eqn:Hpos.
    + apply Qltb_true in Hpos. change (inject_Z 0) with 0%Q in Hpos.
      assert (Hmargin : (0 < n / (b * a) * inject_Z 100)%Q).
      { change (inject_Z 100) with 100%Q.
        assert (0 < n / (b * a))%Q by (apply Qlt_shift_div_l; [done|lra]).
        lra. }
      split; [intros _; split; [done|by apply Qltb_true]|].
      split; [done|]. apply Qltb_false. by apply Qlt_le_weak.
    + apply Qltb_false in Hpos. change (inject_Z 0) with 0%Q in Hpos.
      split; [|split; done].
      intros Hle. apply Qle_bool_iff in Hle. lra.
  - cbn. rewrite Hneg. cbn. done.
  - cbn. done.
  - cbn. done.
Qed.

(** X28 on the detector's candidate for 2000 against 2100 with deep
    reserves. *)
Lemma profitable_has_positive_margin_witness :
  exists r : ProfitAnalysis,
    (calculateNetProfit config (env_feeds settled_env) ProfitCalculator_new
       weth_usdc_opportunity).1 = Ok r
    /\ (profitMargin r <? of_Z 0)%num = false.
Proof.
  destruct (profitable_has_positive_margin config (env_feeds settled_env)
              ProfitCalculator_new weth_usdc_opportunity 10 2000 (1000 / 2000))
    as (r & H1 & _ & _ & H2).
  - by eexists.
  - by eexists.
  - reflexivity.
  - reflexivity.
  - reflexivity.
  - reflexivity.
  - reflexivity.
  - exists r. split; [exact H1|exact H2].
Defined.
